(** * Solar forecast datasource: cache, rate gate and time-series assembly

    A shallow embedding of [src/datasource_proxy.ts] (class [DataSource]):
    the query resolver, the cache and rate gate of [doRequest], the two
    provider adapters and [formatAsTimeSeries], followed by the properties
    the specification states about them.

    Conventions of the embedding:
    - a JS number that is a time value (milliseconds since the epoch) is an
      integer or NaN: [option Z], [None] being NaN;
    - any other JS number is a binary64 float ([PrimFloat.float]);
    - a JS object used as a dictionary is an association list in
      [Object.entries] order; the [Map] fields of the class are [gmap]s;
    - an [async] method is a resumption: it runs until it finishes or until
      it waits for the HTTP backend, where it hands back a continuation. *)

From Stdlib Require Import ZArith Floats Ascii DecimalString DecimalPos Uint63 Lia.
From stdpp Require Import gmap strings list sorting.

Set Warnings "-inexact-float,-register-all".
Local Open Scope Z_scope.

(** ** JavaScript values *)

Module JS.

(** The values that flow through the canonical result: numbers and objects
    whose own enumerable properties are again such values.  Indexing an
    object can also reach a member that the object inherits from
    [Object.prototype]; such a member, a built-in function (for [__proto__]
    the prototype itself), is named by its property name.  It is no part of
    any response body. *)
Inductive jsval : Type :=
| JNum (n : float)
| JObj (props : list (string * jsval))
| JInherited (name : string).

(** ToBoolean: a number is falsy when it is [0], [-0] or [NaN]; an object,
    a function among them, is always truthy. *)
Definition truthy_num (n : float) : bool :=
  negb (PrimFloat.is_zero n || PrimFloat.is_nan n).

Definition truthy (v : jsval) : bool :=
  match v with
  | JNum n => truthy_num n
  | JObj _ => true
  | JInherited _ => true
  end.

(** [x || d] for an optional number property ([None] is [undefined]). *)
Definition or_num (x : option float) (d : float) : float :=
  match x with
  | Some n => if truthy_num n then n else d
  | None => d
  end.

(** [x || d] for an optional string property: [undefined] and the empty
    string are falsy. *)
Definition truthy_str (s : string) : bool := negb (String.eqb s "").

Definition or_str (x : option string) (d : string) : string :=
  match x with
  | Some s => if truthy_str s then s else d
  | None => d
  end.

Definition truthy_ostr (x : option string) : bool :=
  match x with Some s => truthy_str s | None => false end.

(** Property lookup [o[k]] in an association list: the first binding. *)
Fixpoint obj_get {A} (k : string) (o : list (string * A)) : option A :=
  match o with
  | [] => None
  | (k', v) :: o' => if String.eqb k k' then Some v else obj_get k o'
  end.

(** Property assignment [o[k] = v]: an existing property keeps its place and
    takes the new value, a new one is appended.  The list is then in order
    of creation; an engine enumerates array indices first and in numeric
    order, see [own_entries] below. *)
Fixpoint obj_set {A} (k : string) (v : A) (o : list (string * A)) : list (string * A) :=
  match o with
  | [] => [(k, v)]
  | (k', v') :: o' =>
      if String.eqb k k' then (k', v) :: o' else (k', v') :: obj_set k v o'
  end.

(** The string-keyed members of [Object.prototype], which every object made
    by an object literal or by [JSON.parse] inherits. *)
Definition Object_prototype_names : list string :=
  ["constructor"; "hasOwnProperty"; "isPrototypeOf"; "propertyIsEnumerable";
   "toLocaleString"; "toString"; "valueOf"; "__proto__";
   "__defineGetter__"; "__defineSetter__"; "__lookupGetter__"; "__lookupSetter__"].

Definition inherited (k : string) : option jsval :=
  if existsb (String.eqb k) Object_prototype_names then Some (JInherited k) else None.

(** [v[k]]: an own property first, then the prototype chain.  The code
    indexes objects only; a number or an inherited member has no own
    property of the model and is given the members of [Object.prototype],
    which its own prototype chain ends in. *)
Definition index (v : jsval) (k : string) : option jsval :=
  match v with
  | JObj o =>
      match obj_get k o with
      | Some x => Some x
      | None => inherited k
      end
  | JNum _ => inherited k
  | JInherited _ => inherited k
  end.

(** [Object.entries(v)]: the own enumerable properties; a number has none,
    and neither has a built-in function or [Object.prototype]. *)
Definition Object_entries (v : jsval) : list (string * jsval) :=
  match v with
  | JObj o => o
  | JNum _ => []
  | JInherited _ => []
  end.

(** Template-literal interpolation of an optional string: [undefined] prints
    as the word. *)
Definition show_ostr (x : option string) : string := default "undefined" x.

(** [Number.prototype.toString] on an integer, and on NaN. *)
Definition Z_toString (z : Z) : string := NilZero.string_of_int (Z.to_int z).

Definition time_toString (t : option Z) : string :=
  match t with Some z => Z_toString z | None => "NaN" end.

(** [Math.round]: the nearest integer, ties towards +infinity.  A float with
    a non-negative exponent is an integer already; otherwise the value is
    [m / 2^(-e)] and the result is [floor ((2m + 2^(-e)) / 2^(1-e))]. *)
Definition round_SF (s : bool) (m : positive) (e : Z) : Z :=
  let d := 2 ^ (- e) in
  let num := if s then - Z.pos m else Z.pos m in
  (2 * num + d) / (2 * d).

Definition float_of_Z (z : Z) : float :=
  if z <? 0 then PrimFloat.opp (PrimFloat.of_uint63 (Uint63.of_Z (- z)))
  else PrimFloat.of_uint63 (Uint63.of_Z z).

Definition Math_round (x : float) : float :=
  match Prim2SF x with
  | S754_finite s m e =>
      if 0 <=? e then x
      else
        let r := round_SF s m e in
        if (r =? 0) && s then PrimFloat.neg_zero else float_of_Z r
  | _ => x
  end.

End JS.
Import JS.

(** ** Time values and the [Date] object

    Local time is UTC plus a fixed offset [tza] (the host's [LocalTZA]);
    daylight-saving transitions are outside the model.  Time values stay
    within the range in which [TimeClip] is the identity. *)

Module DateModel.

Definition msPerDay : Z := 86400000.
Definition msPerHour : Z := 3600000.
Definition msPerMinute : Z := 60000.
Definition msPerSecond : Z := 1000.

Definition Day (t : Z) : Z := t / msPerDay.
Definition TimeWithinDay (t : Z) : Z := t mod msPerDay.
Definition MakeTime (h m s ms : Z) : Z :=
  h * msPerHour + m * msPerMinute + s * msPerSecond + ms.
Definition MakeDate (day time : Z) : Z := day * msPerDay + time.

(** The proleptic Gregorian calendar on day numbers (day 0 is 1970-01-01). *)
Definition days_from_civil (y m d : Z) : Z :=
  let y' := if m <=? 2 then y - 1 else y in
  let era := y' / 400 in
  let yoe := y' - era * 400 in
  let doy := (153 * (if 2 <? m then m - 3 else m + 9) + 2) / 5 + d - 1 in
  let doe := yoe * 365 + yoe / 4 - yoe / 100 + doy in
  era * 146097 + doe - 719468.

Definition civil_from_days (day : Z) : Z * Z * Z :=
  let z := day + 719468 in
  let era := z / 146097 in
  let doe := z - era * 146097 in
  let yoe := (doe - doe / 1460 + doe / 36524 - doe / 146096) / 365 in
  let doy := doe - (365 * yoe + yoe / 4 - yoe / 100) in
  let mp := (5 * doy + 2) / 153 in
  let d := doy - (153 * mp + 2) / 5 + 1 in
  let m := if mp <? 10 then mp + 3 else mp - 9 in
  let y := yoe + era * 400 in
  ((if m <=? 2 then y + 1 else y), m, d).

(** [DateFromTime]: the day of the month, 1 to 31. *)
Definition DateFromTime (t : Z) : Z := snd (civil_from_days (Day t)).

(** [MakeDay(YearFromTime(t), MonthFromTime(t), dt)]: the day number of the
    first day of [t]'s month, plus [dt - 1].  The first of the month is
    [DateFromTime t - 1] days before [Day t]. *)
Definition MakeDay_in_month_of (t dt : Z) : Z :=
  (Day t - (DateFromTime t - 1)) + dt - 1.

Section Local.

Variable tza : Z.

Definition LocalTime (t : Z) : Z := t + tza.

Definition UTC (t : Z) : Z := t - tza.

(** [d.getDate()] *)
Definition getDate (d : Z) : Z := DateFromTime (LocalTime d).

(** [d.setDate(dt)] *)
Definition setDate (d dt : Z) : Z :=
  let t := LocalTime d in
  UTC (MakeDate (MakeDay_in_month_of t dt) (TimeWithinDay t)).

(** [d.setHours(h, m, s, ms)] *)
Definition setHours (d h m s ms : Z) : Z :=
  let t := LocalTime d in
  UTC (MakeDate (Day t) (MakeTime h m s ms)).

End Local.

(** Decimal digits of a string. *)
Definition digit_of (c : Ascii.ascii) : option Z :=
  let n := Z.of_N (Ascii.N_of_ascii c) in
  if (48 <=? n) && (n <=? 57) then Some (n - 48) else None.

Fixpoint digits_acc (acc : Z) (s : string) : option Z :=
  match s with
  | EmptyString => Some acc
  | String c s' =>
      match digit_of c with
      | Some d => digits_acc (10 * acc + d) s'
      | None => None
      end
  end.

Definition number_at (start len : nat) (s : string) : option Z :=
  let f := String.substring start len s in
  if Nat.eqb (String.length f) len then digits_acc 0 f else None.

Definition char_at (i : nat) (c : string) (s : string) : bool :=
  String.eqb (String.substring i 1 s) c.

Definition in_range (lo x hi : Z) : bool := (lo <=? x) && (x <=? hi).

(** The fields of [YYYY-MM-DD?HH:mm:ss] with separator [sep] at index 10. *)
Definition parse_fields (sep : string) (s : string) : option Z :=
  if char_at 4 "-" s && char_at 7 "-" s && char_at 10 sep s
     && char_at 13 ":" s && char_at 16 ":" s then
    match number_at 0 4 s, number_at 5 2 s, number_at 8 2 s,
          number_at 11 2 s, number_at 14 2 s, number_at 17 2 s with
    | Some y, Some mo, Some d, Some h, Some mi, Some sec =>
        if in_range 1 mo 12 && in_range 1 d 31 && in_range 0 h 23
           && in_range 0 mi 59 && in_range 0 sec 59 then
          Some (MakeDate (days_from_civil y mo d) (MakeTime h mi sec 0))
        else None
    | _, _, _, _, _, _ => None
    end
  else None.

(** A [Date.parse] that reads three shapes and rejects everything else:
    [YYYY-MM-DDTHH:mm:ssZ] (UTC), [YYYY-MM-DD HH:mm:ss] (local time, the shape
    of the primary provider's keys) and [YYYY-MM-DD] (UTC midnight). *)
Definition parse_iso (tza : Z) (s : string) : option Z :=
  match String.length s with
  | 20%nat => if char_at 19 "Z" s then parse_fields "T" (String.substring 0 19 s) else None
  | 19%nat => (fun t => UTC tza t) <$> parse_fields " " s
  | 10%nat => parse_fields "T" (s +:+ "T00:00:00")
  | _ => None
  end.

(** [d.toISOString().split('T')[0]] for years 0 to 9999. *)
Definition pad (width : nat) (z : Z) : string :=
  let s := Z_toString z in
  String.concat "" (replicate (width - String.length s) "0") +:+ s.

Definition toISODate (t : Z) : string :=
  let '(y, m, d) := civil_from_days (Day t) in
  pad 4 y +:+ "-" +:+ pad 2 m +:+ "-" +:+ pad 2 d.

End DateModel.
Import DateModel.

(** ** Property order, [parseInt] and [TimeClip] *)

Module Builtins.

(** An array index: the canonical decimal string of an integer from 0 to
    2^32 - 2. *)
Definition array_index (k : string) : option Z :=
  match k with
  | EmptyString => None
  | String c rest =>
      if Ascii.eqb c "0"%char && negb (String.eqb rest "") then None
      else
        match digits_acc 0 k with
        | Some n => if n <=? 4294967294 then Some n else None
        | None => None
        end
  end.

Definition is_array_index (k : string) : bool :=
  match array_index k with Some _ => true | None => false end.

Fixpoint insert_index {A} (i : Z) (e : A) (l : list (Z * A)) : list (Z * A) :=
  match l with
  | [] => [(i, e)]
  | (j, e') :: l' => if i <? j then (i, e) :: l else (j, e') :: insert_index i e l'
  end.

Definition indexed_entries {A} (o : list (string * A)) : list (Z * (string * A)) :=
  foldr (fun e acc =>
           match array_index (fst e) with
           | Some i => insert_index i e acc
           | None => acc
           end) [] o.

(** The order in which an engine enumerates the own properties of an object
    whose properties were created in the order of [o]: the array indices in
    ascending numeric order, then the other keys in order of creation. *)
Definition own_entries {A} (o : list (string * A)) : list (string * A) :=
  map snd (indexed_entries o)
  ++ List.filter (fun e => negb (is_array_index (fst e))) o.

(** The longest run of decimal digits at the start of a string, read as a
    number; [None] when the string starts with no digit. *)
Fixpoint leading_digits (acc : option Z) (s : string) : option Z :=
  match s with
  | EmptyString => acc
  | String c s' =>
      match digit_of c with
      | Some d => leading_digits (Some (10 * default 0 acc + d)) s'
      | None => acc
      end
  end.

(** [parseInt(s)] on a string that starts with neither white space nor a
    hexadecimal prefix, as every string [Number.prototype.toString] gives: an
    optional sign and the leading decimal digits, NaN when there are none. *)
Definition parseInt (s : string) : option Z :=
  match s with
  | String "-"%char s' => Z.opp <$> leading_digits None s'
  | String "+"%char s' => leading_digits None s'
  | _ => leading_digits None s
  end.

(** [TimeClip]: a time value beyond 8.64e15 ms from the epoch is NaN. *)
Definition TimeClip (t : option Z) : option Z :=
  match t with
  | Some v => if Z.abs v <=? 8640000000000000 then Some v else None
  | None => None
  end.

End Builtins.
Import Builtins.


(** ** Data model *)

(** [SolarLocation] of [types.ts]. *)
Record SolarLocation := {
  loc_id : string;
  loc_name : string;
  loc_latitude : float;
  loc_longitude : float;
  loc_declination : float;
  loc_azimuth : float;
  loc_kwp : float;
}.

(** [MyQuery] of [types.ts]; an optional property is an [option]. *)
Record MyQuery := {
  refId : string;
  metric : option string;
  dataType : option string;
  locationId : option string;
  useCustomLocation : option bool;
  latitude : option float;
  longitude : option float;
  declination : option float;
  azimuth : option float;
  kwp : option float;
  solcastSiteId : option string;
  startDate : option string;
  endDate : option string;
  forecastPeriod : option string;
}.

(** What the code reads of [instanceSettings]: [uid], [jsonData.provider],
    [jsonData.locations], the truthiness of [jsonData.hasApiKey] and
    [secureJsonFields.apiKey]. *)
Record InstanceSettings := {
  uid : string;
  jsonData_provider : option string;
  jsonData_locations : option (list SolarLocation);
  jsonData_hasApiKey : bool;
  secureJsonFields_apiKey : option bool;
}.

(** A thrown value: an [Error] with its message, or the rejection value of
    the HTTP backend. *)
Inductive thrown :=
| ErrorObj (message : string)
| FetchError (status : Z) (statusText : string).

(** One entry of the alt provider's [forecasts] array. *)
Record SolcastForecast := {
  period_end : string;
  pv_estimate : float;
}.

(** The body of a backend response, as far as the code reads it:
    [data.result] and [data.forecasts] ([data.message] is only logged). *)
Record Response := {
  result : option jsval;
  forecasts : option (list SolcastForecast);
}.

(** A [MutableDataFrame] with a time field and one number field. *)
Record DataFrame := {
  frame_refId : string;
  field_name : string;
  field_unit : string;
  rows : list (Z * jsval);
}.

Record DataQueryResponse := { data : list DataFrame }.

(** A value of the [cache] map: [{ data, timestamp }]. *)
Record CacheEntry := {
  entry_data : jsval;
  entry_timestamp : Z;
}.

(** The two [Map] fields of the class, and the two counters of the
    environment: how often the clock was read and which URLs were requested. *)
Record State := {
  cache : gmap string CacheEntry;
  lastApiCall : gmap string Z;
  ticks : nat;
  requests : list string;
}.

(** The host: what the JavaScript engine and the outside world decide. *)
Record Host := {
  (** [new Date(s).getTime()], [None] for an invalid date *)
  Date_parse : string -> option Z;
  (** [Number.prototype.toString] *)
  Number_toString : float -> string;
  (** the offset of local time from UTC, in milliseconds *)
  LocalTZA : Z;
  (** the n-th reading of the system clock ([Date.now()], [new Date()]) *)
  clock : nat -> Z;
  (** how the n-th request to the HTTP backend settles *)
  backendGet : nat -> string -> thrown + Response;
  (** the message of the RangeError that [toISOString] throws on an invalid
      date *)
  toISOString_RangeError : string;
}.

(** ** Asynchronous computations

    A method runs on the state until it is done (with a value or a thrown
    value) or until it awaits the backend; there it returns the state it
    leaves behind and a continuation that takes the settled response and the
    state at the time of resumption. *)

Inductive Run (A : Type) : Type :=
| Done (s : State) (o : thrown + A)
| Await (s : State) (req : nat) (url : string)
        (k : thrown + Response -> State -> Run A).
Arguments Done {A} s o.
Arguments Await {A} s req url k.

Definition M (A : Type) : Type := State -> Run A.

Definition ret {A} (a : A) : M A := fun s => Done s (inr a).
Definition throw {A} (e : thrown) : M A := fun s => Done s (inl e).

Fixpoint bindRun {A B} (r : Run A) (f : A -> M B) : Run B :=
  match r with
  | Done s (inr a) => f a s
  | Done s (inl e) => Done s (inl e)
  | Await s n url k => Await s n url (fun resp s' => bindRun (k resp s') f)
  end.

Definition bind {A B} (m : M A) (f : A -> M B) : M B :=
  fun s => bindRun (m s) f.

(** [try { m } catch (e) { h e }] *)
Fixpoint catchRun {A} (r : Run A) (h : thrown -> M A) : Run A :=
  match r with
  | Done s (inr a) => Done s (inr a)
  | Done s (inl e) => h e s
  | Await s n url k => Await s n url (fun resp s' => catchRun (k resp s') h)
  end.

Definition try_catch {A} (m : M A) (h : thrown -> M A) : M A :=
  fun s => catchRun (m s) h.

Notation "'do' x <- m ; k" := (bind m (fun x => k))
  (at level 10, x name, m at level 100, k at level 200).

Definition get_state : M State := fun s => Done s (inr s).

(** [await getBackendSrv().get(url)]: the request is issued, then the
    method waits. *)
Definition backend_get (url : string) : M Response :=
  fun s =>
    Await {| cache := cache s; lastApiCall := lastApiCall s; ticks := ticks s;
             requests := requests s ++ [url] |}
          (length (requests s)) url
          (fun resp s' => Done s' resp).

(** ** The class [DataSource] *)

Section DataSource.

Context (host : Host) (instanceSettings : InstanceSettings).

Definition CACHE_TTL : Z := 30 * 60 * 1000.
Definition MIN_CACHE_TTL : Z := 10 * 60 * 1000.

(** [Date.now()], and [new Date()] read as its time value. *)
Definition Date_now : M Z :=
  fun s =>
    Done {| cache := cache s; lastApiCall := lastApiCall s;
            ticks := S (ticks s); requests := requests s |}
         (inr (clock host (ticks s))).

Definition cache_set (key : string) (e : CacheEntry) : M unit :=
  fun s =>
    Done {| cache := <[key := e]> (cache s); lastApiCall := lastApiCall s;
            ticks := ticks s; requests := requests s |}
         (inr tt).

Definition lastApiCall_set (provider : string) (t : Z) : M unit :=
  fun s =>
    Done {| cache := cache s; lastApiCall := <[provider := t]> (lastApiCall s);
            ticks := ticks s; requests := requests s |}
         (inr tt).

(** *** [parseTimestamp] *)
Definition isNaN (x : option Z) : bool :=
  match x with None => true | Some _ => false end.

Definition parseTimestamp (timestamp : string) : option Z :=
  let parsed := Date_parse host timestamp in
  if isNaN parsed then Some 0 else parsed.

(** *** [getFieldConfig] *)
Definition getFieldConfig (metric : string) : string * string :=
  if String.eqb metric "watts" then ("Power (Watts)", "watt")
  else if String.eqb metric "watt_hours" then ("Energy Accumulated (Wh)", "watth")
  else if String.eqb metric "watt_hours_period" then ("Energy per Period (Wh)", "watth")
  else if String.eqb metric "watt_hours_day" then ("Daily Energy Summary (Wh)", "watth")
  else if String.eqb metric "history_watthours" then ("Historical Energy (Wh)", "watth")
  else if String.eqb metric "watthours" then ("Energy (Wh)", "watth")
  else if String.eqb metric "watthours_day" then ("Daily Energy (Wh)", "watth")
  else ("Value", "short").

(** *** [mapForecastPeriodToDay] *)
Definition mapForecastPeriodToDay (forecastPeriod : string) : string :=
  if String.eqb forecastPeriod "today" then "0"
  else if String.eqb forecastPeriod "tomorrow" then "1"
  else if String.eqb forecastPeriod "day+2" then "2"
  else if String.eqb forecastPeriod "day+3" then "3"
  else if String.eqb forecastPeriod "day+4" then "4"
  else if String.eqb forecastPeriod "day+5" then "5"
  else if String.eqb forecastPeriod "day+6" then "6"
  else "all".

(** *** [getTargetDateFromPeriod] *)

(** The [switch] on the period, [today] being the time value of
    [new Date()]. *)
Definition targetDateFrom (today : Z) (forecastPeriod : string) : Z :=
  let targetDate := today in
  let tza := LocalTZA host in
  if String.eqb forecastPeriod "today" then targetDate
  else if String.eqb forecastPeriod "tomorrow" then setDate tza targetDate (getDate tza today + 1)
  else if String.eqb forecastPeriod "day+2" then setDate tza targetDate (getDate tza today + 2)
  else if String.eqb forecastPeriod "day+3" then setDate tza targetDate (getDate tza today + 3)
  else if String.eqb forecastPeriod "day+4" then setDate tza targetDate (getDate tza today + 4)
  else if String.eqb forecastPeriod "day+5" then setDate tza targetDate (getDate tza today + 5)
  else if String.eqb forecastPeriod "day+6" then setDate tza targetDate (getDate tza today + 6)
  else targetDate.

Definition getTargetDateFromPeriod (forecastPeriod : string) : M Z :=
  do today <- Date_now;
  ret (targetDateFrom today forecastPeriod).

(** *** [Array.prototype.sort] with a compare function

    A stable insertion sort: [x] moves behind [y] only when [cmp x y] is a
    positive number (a NaN result counts as zero). *)
Definition cmp_positive (c : option Z) : bool :=
  match c with Some z => 0 <? z | None => false end.

Fixpoint sort_insert {A} (cmp : A -> A -> option Z) (x : A) (l : list A) : list A :=
  match l with
  | [] => [x]
  | y :: l' => if cmp_positive (cmp x y) then y :: sort_insert cmp x l' else x :: y :: l'
  end.

Definition Array_sort {A} (cmp : A -> A -> option Z) (l : list A) : list A :=
  foldr (sort_insert cmp) [] l.

(** Number subtraction and comparison on time values. *)
Definition time_sub (a b : option Z) : option Z :=
  match a, b with Some x, Some y => Some (x - y) | _, _ => None end.

Definition time_ge (a : option Z) (b : Z) : bool :=
  match a with Some x => b <=? x | None => false end.

Definition time_le (a : option Z) (b : Z) : bool :=
  match a with Some x => x <=? b | None => false end.

(** *** [formatAsTimeSeries] *)

(** [allData[metric] || allData] *)
Definition selectData (allData : jsval) (metric : string) : jsval :=
  match index allData metric with
  | Some v => if truthy v then v else allData
  | None => allData
  end.

(** The [timeFilter] closure of a specific day. *)
Definition dayFilter (startOfDay endOfDay : Z) (timestamp : string) : bool :=
  let ts := parseTimestamp timestamp in
  time_ge ts startOfDay && time_le ts endOfDay.

(** The body of the [forEach]: a row is added unless the time is NaN. *)
Definition addRow (frame : list (Z * jsval)) (entry : string * jsval) : list (Z * jsval) :=
  let timeValue := parseTimestamp (fst entry) in
  match timeValue with
  | None => frame
  | Some t => frame ++ [(t, snd entry)]
  end.

Definition formatAsTimeSeries (allData : jsval) (query : MyQuery) : M DataFrame :=
  let metric := or_str (metric query) "watts" in
  let forecastPeriod := or_str (forecastPeriod query) "all" in
  let selectedData := selectData allData metric in
  let fieldConfig := getFieldConfig metric in
  do timeFilter <-
    (if String.eqb forecastPeriod "all" then ret (fun _ : string => true)
     else
       do targetDate <- getTargetDateFromPeriod forecastPeriod;
       let startOfDay := setHours (LocalTZA host) targetDate 0 0 0 0 in
       let endOfDay := setHours (LocalTZA host) targetDate 23 59 59 999 in
       ret (dayFilter startOfDay endOfDay));
  let entries :=
    Array_sort (fun a b : string * jsval =>
                  time_sub (parseTimestamp (fst a)) (parseTimestamp (fst b)))
      (filter (fun e => Is_true (timeFilter (fst e))) (Object_entries selectedData)) in
  ret {| frame_refId := refId query;
         field_name := fst fieldConfig;
         field_unit := snd fieldConfig;
         rows := fold_left addRow entries [] |}.

(** *** [getCacheKey] *)
Definition show_num (x : float) : string := Number_toString host x.

Definition getCacheKey (provider : string) (latitude longitude declination azimuth kwp : float)
    (solcastSiteId : option string) (dataType metric : string)
    (startDate endDate forecastPeriod : option string) : string :=
  provider +:+ "-" +:+ show_num latitude +:+ "-" +:+ show_num longitude +:+ "-"
  +:+ show_num declination +:+ "-" +:+ show_num azimuth +:+ "-" +:+ show_num kwp +:+ "-"
  +:+ show_ostr solcastSiteId +:+ "-" +:+ dataType +:+ "-" +:+ metric +:+ "-"
  +:+ show_ostr startDate +:+ "-" +:+ show_ostr endDate +:+ "-" +:+ show_ostr forecastPeriod.

(** *** [getEffectiveCacheTTL] *)
Definition getEffectiveCacheTTL (provider : string) (metric : string) : Z :=
  if String.eqb provider "solcast" then CACHE_TTL
  else if String.eqb metric "watt_hours_day" then CACHE_TTL
  else Z.max MIN_CACHE_TTL (CACHE_TTL / 3).

(** *** [mapMetricToKey] *)
Definition mapMetricToKey (metric : string) : string :=
  if String.eqb metric "watts" then "watts"
  else if String.eqb metric "watthours" then "watthours"
  else if String.eqb metric "watthours_day" then "watthours_day"
  else if String.eqb metric "history_watthours" then "history_watthours"
  else if String.eqb metric "watt_hours" then "watthours"
  else if String.eqb metric "watt_hours_day" then "watthours_day"
  else if String.eqb metric "watt_hours_period" then "watt_hours_period"
  else metric.

(** *** [processForecastSolarData] *)

(** [Object.entries(sourceData).forEach(([k, v]) => target[k] = v)] into a
    fresh object. *)
Definition copy_entries (sourceData : jsval) : jsval :=
  JObj (fold_left (fun o e => obj_set (fst e) (snd e) o) (Object_entries sourceData) []).

Definition availableMetrics : list string :=
  ["watts"; "watt_hours_period"; "watt_hours"; "watt_hours_day"].

Definition processForecastSolarData (data : Response) (dataType metric : string) : M jsval :=
  if String.eqb dataType "historical" then
    match result data with
    | Some sourceData =>
        if truthy sourceData then
          let metricKey := mapMetricToKey metric in
          let series := copy_entries sourceData in
          ret (JObj (obj_set "watthours" series
                      (obj_set "history_watthours" series
                        (obj_set metricKey series []))))
        else ret (JObj [])
    | None => ret (JObj [])
    end
  else
    match result data with
    | Some (JObj o) =>
        ret (JObj (fold_left
               (fun res metricKey =>
                  match obj_get metricKey o with
                  | Some sourceData =>
                      if truthy sourceData
                      then obj_set metricKey (copy_entries sourceData) res
                      else res
                  | None => res
                  end)
               availableMetrics []))
    | _ => throw (ErrorObj "Invalid forecast data structure received from API")
    end.

(** *** [fetchForecastSolarDataViaProxy] and [fetchForecastSolarData] *)
Definition hasApiKey : bool :=
  match secureJsonFields_apiKey instanceSettings with
  | Some true => true
  | _ => false
  end || jsonData_hasApiKey instanceSettings.

Definition proxyUrl (routePath endpointPath : string) : string :=
  "/api/datasources/proxy/uid/" +:+ uid instanceSettings +:+ "/" +:+ routePath +:+ endpointPath.

Definition error_message (error : thrown) : string :=
  match error with
  | ErrorObj m => m
  | FetchError _ _ => "Unknown error"
  end.

Definition fetchForecastSolarDataViaProxy
    (latitude longitude declination azimuth kwp : float)
    (dataType metric : string) (startDate endDate : option string) : M jsval :=
  let historical := String.eqb dataType "historical" in
  let needsKey :=
    ErrorObj "Historical data requires a paid API key. Please configure an API key in the datasource settings." in
  if historical && negb hasApiKey then throw needsKey
  else
    let routePath :=
      if historical then "forecast-solar-paid"
      else if hasApiKey then "forecast-solar-paid"
      else "forecast-solar-free" in
    let params :=
      show_num latitude +:+ "/" +:+ show_num longitude +:+ "/" +:+ show_num declination
      +:+ "/" +:+ show_num azimuth +:+ "/" +:+ show_num kwp in
    do endpointPath <-
      (if historical then
         if negb hasApiKey then throw needsKey
         else if String.eqb metric "history_watthours" || String.eqb metric "watthours" then
           let base := "/history/watthours/" +:+ params in
           if truthy_ostr startDate && truthy_ostr endDate then
             ret (base +:+ "/" +:+ show_ostr startDate +:+ "/" +:+ show_ostr endDate)
           else
             do today <- Date_now;
             let lastWeek :=
               setDate (LocalTZA host) today (getDate (LocalTZA host) today - 7) in
             ret (base +:+ "/" +:+ toISODate lastWeek +:+ "/" +:+ toISODate today)
         else
           throw (ErrorObj ("Historical data is only available for energy metrics (watthours), not for "
                            +:+ metric))
       else ret ("/estimate/" +:+ params));
    let url := proxyUrl routePath endpointPath in
    try_catch
      (do data <- backend_get url;
       processForecastSolarData data dataType metric)
      (fun error =>
         if historical then
           throw (ErrorObj ("Historical data is only available with a paid API key. Error: "
                            +:+ error_message error))
         else if hasApiKey && String.eqb routePath "forecast-solar-paid" then
           let fallbackUrl := proxyUrl "forecast-solar-free" endpointPath in
           try_catch
             (do fallbackData <- backend_get fallbackUrl;
              processForecastSolarData fallbackData dataType metric)
             (fun fallbackError => throw fallbackError)
         else throw error).

Definition fetchForecastSolarData
    (latitude longitude declination azimuth kwp : float)
    (dataType metric : string) (startDate endDate : option string) : M jsval :=
  fetchForecastSolarDataViaProxy latitude longitude declination azimuth kwp
    dataType metric startDate endDate.

(** *** [fetchSolcastData] *)

(** The body of [data.forecasts?.forEach]: [Math.floor(ms / 1000)] of an
    integer time value is the floor division (the float quotient of an
    integer below 8.64e15 by 1000 never rounds up to the next integer). *)
Definition solcast_watts (forecast : SolcastForecast) : float :=
  Math_round (pv_estimate forecast * 1000)%float.

Definition solcast_timestamp (forecast : SolcastForecast) : option Z :=
  let periodEnd := Date_parse host (period_end forecast) in
  (fun ms => ms / 1000 - 1800) <$> periodEnd.

Definition solcast_add (watts : list (string * jsval)) (forecast : SolcastForecast)
    : list (string * jsval) :=
  obj_set (time_toString (solcast_timestamp forecast)) (JNum (solcast_watts forecast)) watts.

(** One of the [sampleValues] of the last debug log,
    [new Date(parseInt(time) * 1000).toISOString()]: [toISOString] throws a
    RangeError when the date is invalid, and nothing catches it. *)
Definition sample_is_invalid (entry : string * jsval) : bool :=
  isNaN (TimeClip ((fun seconds => seconds * 1000) <$> parseInt (fst entry))).

(** After the [forEach], [result.watts] is enumerated in the engine's order
    of own properties; the log formats its first three entries before the
    result is returned. *)
Definition fetchSolcastData (latitude longitude : float) (solcastSiteId : option string)
    : M jsval :=
  if negb (default false (secureJsonFields_apiKey instanceSettings)) then
    throw (ErrorObj "API key is required for Solcast")
  else if negb (truthy_ostr solcastSiteId) then
    throw (ErrorObj "Solcast Site ID is required")
  else
    let url :=
      "/api/datasources/proxy/uid/" +:+ uid instanceSettings +:+ "/solcast/rooftop_sites/"
      +:+ show_ostr solcastSiteId +:+ "/forecasts" in
    do data <- backend_get url;
    let watts := own_entries (fold_left solcast_add (default [] (forecasts data)) []) in
    if existsb sample_is_invalid (take 3 watts) then
      throw (ErrorObj (toISOString_RangeError host))
    else ret (JObj [("watts", JObj watts)]).

(** *** [doRequest] *)

Record ResolvedLocation := {
  res_latitude : float;
  res_longitude : float;
  res_declination : float;
  res_azimuth : float;
  res_kwp : float;
}.

(** Lines 54 to 85 of [doRequest]: the location of a query. *)
Definition resolveLocation (query : MyQuery) : thrown + ResolvedLocation :=
  if truthy_ostr (locationId query) && negb (default false (useCustomLocation query)) then
    let locations := default [] (jsonData_locations instanceSettings) in
    match List.find (fun loc => bool_decide (Some (loc_id loc) = locationId query)) locations with
    | None =>
        inl (ErrorObj ("Location with ID " +:+ show_ostr (locationId query)
                       +:+ " not found in datasource configuration"))
    | Some selectedLocation =>
        inr {| res_latitude := loc_latitude selectedLocation;
               res_longitude := loc_longitude selectedLocation;
               res_declination := loc_declination selectedLocation;
               res_azimuth := loc_azimuth selectedLocation;
               res_kwp := loc_kwp selectedLocation |}
    end
  else
    inr {| res_latitude := or_num (latitude query) 51.13;
           res_longitude := or_num (longitude query) 10.42;
           res_declination := or_num (declination query) 30;
           res_azimuth := or_num (azimuth query) 180;
           res_kwp := or_num (kwp query) 5.0 |}.

Definition provider_of : string :=
  or_str (jsonData_provider instanceSettings) "forecast.solar".

Definition cacheKey_of (query : MyQuery) (loc : ResolvedLocation) : string :=
  getCacheKey provider_of (res_latitude loc) (res_longitude loc) (res_declination loc)
    (res_azimuth loc) (res_kwp loc) (solcastSiteId query)
    (or_str (dataType query) "forecast") (or_str (metric query) "watts")
    (startDate query) (endDate query) (forecastPeriod query).

Definition minIntervalBetweenCalls (provider : string) : Z :=
  if String.eqb provider "solcast" then 30 * 60 * 1000 else 5 * 60 * 1000.

(** The provider call of the fetch branch (lines 122 to 126). *)
Definition callProvider (query : MyQuery) (loc : ResolvedLocation) : M jsval :=
  if String.eqb provider_of "solcast" then
    fetchSolcastData (res_latitude loc) (res_longitude loc) (solcastSiteId query)
  else
    fetchForecastSolarData (res_latitude loc) (res_longitude loc) (res_declination loc)
      (res_azimuth loc) (res_kwp loc) (or_str (dataType query) "forecast")
      (or_str (metric query) "watts") (startDate query) (endDate query).

(** The fetch branch of [doRequest] (lines 120 to 135). *)
Definition fetchFresh (query : MyQuery) (loc : ResolvedLocation) : M jsval :=
  let provider := provider_of in
  do allData <- callProvider query loc;
  do now <- Date_now;
  do _ <- lastApiCall_set provider now;
  do now' <- Date_now;
  do _ <- cache_set (cacheKey_of query loc) {| entry_data := allData; entry_timestamp := now' |};
  ret allData.

(** The cache and rate gate of [doRequest] (lines 100 to 137): the value of
    [allData]. *)
Definition obtainData (query : MyQuery) (loc : ResolvedLocation) : M jsval :=
  let provider := provider_of in
  let metric := or_str (metric query) "watts" in
  let cacheKey := cacheKey_of query loc in
  do s <- get_state;
  let cached := cache s !! cacheKey in
  do cacheAge <-
    (match cached with
     | Some c => do now <- Date_now; ret (Some (now - entry_timestamp c))
     | None => ret None
     end);
  let effectiveTTL := getEffectiveCacheTTL provider metric in
  let rateGate :=
    do s' <- get_state;
    let lastCall := default 0 (lastApiCall s' !! provider) in
    do now <- Date_now;
    let timeSinceLastCall := now - lastCall in
    match cached with
    | Some c =>
        if timeSinceLastCall <? minIntervalBetweenCalls provider
        then ret (entry_data c)
        else fetchFresh query loc
    | None => fetchFresh query loc
    end in
  match cached, cacheAge with
  | Some c, Some age => if age <? effectiveTTL then ret (entry_data c) else rateGate
  | _, _ => rateGate
  end.

Definition doRequest (query : MyQuery) (from to : Z) : M DataFrame :=
  match resolveLocation query with
  | inl e => throw e
  | inr loc =>
      try_catch
        (do allData <- obtainData query loc;
         formatAsTimeSeries allData query)
        (fun error => throw error)
  end.

(** *** [testDatasource] *)

Record TestResult := {
  status : string;
  message : string;
}.

(** The double quote of [JSON.stringify]. *)
Definition dquote : string := String (Ascii.ascii_of_nat 34) EmptyString.

(** [JSON.stringify] of a backend rejection, which in this model carries
    [status] and [statusText] and nothing else. *)
Definition JSON_stringify_rejection (status : Z) (statusText : string) : string :=
  "{" +:+ dquote +:+ "status" +:+ dquote +:+ ":" +:+ Z_toString status +:+ ","
  +:+ dquote +:+ "statusText" +:+ dquote +:+ ":" +:+ dquote +:+ statusText +:+ dquote +:+ "}".

(** The message of the [catch] block: an [Error] gives its message; on an
    object [data.message] comes first, then [statusText], then [message],
    then the stringified object.  A rejection of this model has neither
    [data] nor [message]. *)
Definition testErrorMessage (error : thrown) : string :=
  match error with
  | ErrorObj m => m
  | FetchError st statusText =>
      if truthy_str statusText
      then "HTTP " +:+ Z_toString st +:+ ": " +:+ statusText
      else JSON_stringify_rejection st statusText
  end.

Definition testDatasource : M TestResult :=
  let hasKey :=
    match secureJsonFields_apiKey instanceSettings with
    | Some true => true
    | _ => false
    end in
  let success :=
    {| status := "success";
       message := if hasKey
                  then "Successfully connected to the forecast API with API key"
                  else "Successfully connected to the forecast API (free tier)" |} in
  try_catch
    (if bool_decide (jsonData_provider instanceSettings = Some "solcast") then
       if negb hasKey then
         ret {| status := "error"; message := "API key is required for Solcast provider" |}
       else
         do _ <- fetchSolcastData 51.13 10.42 (Some "test-site-id");
         ret success
     else
       do _ <- fetchForecastSolarData 51.13 10.42 30 180 5.0 "forecast" "watts" None None;
       ret success)
    (fun error =>
       ret {| status := "error";
              message := "Connection failed: " +:+ testErrorMessage error |}).

(** *** Running promises *)

(** One call on its own: every awaited response is delivered at once. *)
Fixpoint drive {A} (r : Run A) : State * (thrown + A) :=
  match r with
  | Done s o => (s, o)
  | Await s n url k => drive (k (backendGet host n url) s)
  end.

Definition exec {A} (m : M A) (s : State) : State * (thrown + A) := drive (m s).

(** Several calls started one after the other, as [targets.map] does: each
    runs up to its first wait, on the state the previous one left. *)
Definition state_of {A} (r : Run A) : State :=
  match r with
  | Done s _ => s
  | Await s _ _ _ => s
  end.

Fixpoint start_all {A} (ms : list (M A)) (s : State) : list (Run A) * State :=
  match ms with
  | [] => ([], s)
  | m :: ms' =>
      let r := m s in
      let '(rs, s') := start_all ms' (state_of r) in
      (r :: rs, s')
  end.

(** The waiting calls are resumed in turn, each on the state of that
    moment. *)
Definition resume {A} (r : Run A) (s : State) : State * (thrown + A) :=
  match r with
  | Done _ o => (s, o)
  | Await _ n url k => drive (k (backendGet host n url) s)
  end.

Fixpoint settle_all {A} (rs : list (Run A)) (s : State) : list (thrown + A) * State :=
  match rs with
  | [] => ([], s)
  | r :: rs' =>
      let '(s1, o) := resume r s in
      let '(os, s2) := settle_all rs' s1 in
      (o :: os, s2)
  end.

(** [Promise.all]: rejected with the reason of the promise that rejected
    first, fulfilled with all values in index order when none rejected.
    [order] lists the indices in the order in which the event loop settled
    the promises; an index it leaves out counts as settling last, in index
    order. *)
Fixpoint collect {A} (os : list (thrown + A)) : thrown + list A :=
  match os with
  | [] => inr []
  | inr a :: os' =>
      match collect os' with
      | inr l => inr (a :: l)
      | inl e => inl e
      end
  | inl e :: _ => inl e
  end.

Definition reason_at {A} (os : list (thrown + A)) (i : nat) : option thrown :=
  match os !! i with
  | Some (inl e) => Some e
  | _ => None
  end.

Fixpoint first_reason {A} (os : list (thrown + A)) (order : list nat) : option thrown :=
  match order with
  | [] => None
  | i :: order' =>
      match reason_at os i with
      | Some e => Some e
      | None => first_reason os order'
      end
  end.

Definition Promise_all {A} (order : list nat) (os : list (thrown + A)) : thrown + list A :=
  match first_reason os order with
  | Some e => inl e
  | None => collect os
  end.

(** *** [query] *)

(** How the promises of [targets.map(target => this.doRequest(...))]
    settle. *)
Definition settle_targets (targets : list MyQuery) (from to : Z) (s : State)
    : list (thrown + DataFrame) * State :=
  let promises := map (fun target => doRequest target from to) targets in
  let '(rs, s1) := start_all promises s in
  settle_all rs s1.

Definition query (targets : list MyQuery) (from to : Z) (order : list nat) (s : State)
    : State * (thrown + DataQueryResponse) :=
  let '(os, s') := settle_targets targets from to s in
  (s', match Promise_all order os with
       | inl e => inl e
       | inr l => inr {| data := l |}
       end).

End DataSource.

Arguments parseTimestamp host timestamp : simpl never.

(** ** The editors ([ConfigEditor.tsx], [QueryEditor.tsx])

    The handlers that change the configured locations and the location of a
    query, as functions from the options (or the query) they are given to the
    ones they hand to [onOptionsChange] (or [onChange]). *)

Module Editor.

Definition with_locations (options : InstanceSettings) (locations : list SolarLocation)
    : InstanceSettings :=
  {| uid := uid options;
     jsonData_provider := jsonData_provider options;
     jsonData_locations := Some locations;
     jsonData_hasApiKey := jsonData_hasApiKey options;
     secureJsonFields_apiKey := secureJsonFields_apiKey options |}.

(** [{ ...location, id }] *)
Definition with_id (id : string) (location : SolarLocation) : SolarLocation :=
  {| loc_id := id;
     loc_name := loc_name location;
     loc_latitude := loc_latitude location;
     loc_longitude := loc_longitude location;
     loc_declination := loc_declination location;
     loc_azimuth := loc_azimuth location;
     loc_kwp := loc_kwp location |}.

(** [ConfigEditor.onDeleteLocation] *)
Definition onDeleteLocation (options : InstanceSettings) (locationId : string)
    : InstanceSettings :=
  let currentLocations := default [] (jsonData_locations options) in
  let updatedLocations :=
    filter (fun loc => loc_id loc <> locationId) currentLocations in
  with_locations options updatedLocations.

(** [ConfigEditor.generateLocationId], [now] being the reading of the clock
    and [random] the digits [Math.random().toString(36).substr(2, 9)]. *)
Definition generateLocationId (now : Z) (random : string) : string :=
  "loc_" +:+ Z_toString now +:+ "_" +:+ random.

(** [ConfigEditor.onSaveLocation]: [None] when the name is blank (the handler
    alerts and returns), otherwise the new options.  [trim] is
    [String.prototype.trim]; [newId] is what [generateLocationId] returns. *)
Definition onSaveLocation (trim : string -> string) (newId : string)
    (editingLocation : option SolarLocation) (newLocation : SolarLocation)
    (options : InstanceSettings) : option InstanceSettings :=
  if negb (truthy_str (trim (loc_name newLocation))) then None
  else
    let currentLocations := default [] (jsonData_locations options) in
    let updatedLocations :=
      match editingLocation with
      | Some editing =>
          map (fun loc =>
                 if String.eqb (loc_id loc) (loc_id editing)
                 then with_id (loc_id editing) newLocation
                 else loc)
              currentLocations
      | None => currentLocations ++ [with_id newId newLocation]
      end in
    Some (with_locations options updatedLocations).

(** [QueryEditor.onLocationChange]: the query handed to [onChange], or the
    query as it is when [onChange] is not called.  [locations] is
    [datasource.getLocations()]. *)
Definition onLocationChange (locations : list SolarLocation) (selectedLocationId : string)
    (query : MyQuery) : MyQuery :=
  if String.eqb selectedLocationId "custom" then
    {| refId := refId query; metric := metric query; dataType := dataType query;
       locationId := None; useCustomLocation := Some true;
       latitude := latitude query; longitude := longitude query;
       declination := declination query; azimuth := azimuth query; kwp := kwp query;
       solcastSiteId := solcastSiteId query; startDate := startDate query;
       endDate := endDate query; forecastPeriod := forecastPeriod query |}
  else if truthy_str selectedLocationId then
    match List.find (fun loc => String.eqb (loc_id loc) selectedLocationId) locations with
    | Some selectedLocation =>
        {| refId := refId query; metric := metric query; dataType := dataType query;
           locationId := Some selectedLocationId; useCustomLocation := Some false;
           latitude := Some (loc_latitude selectedLocation);
           longitude := Some (loc_longitude selectedLocation);
           declination := Some (loc_declination selectedLocation);
           azimuth := Some (loc_azimuth selectedLocation);
           kwp := Some (loc_kwp selectedLocation);
           solcastSiteId := solcastSiteId query; startDate := startDate query;
           endDate := endDate query; forecastPeriod := forecastPeriod query |}
    | None => query
    end
  else query.

(** [DataSource.getLocations] *)
Definition getLocations (instanceSettings : InstanceSettings) : list SolarLocation :=
  default [] (jsonData_locations instanceSettings).

End Editor.

(** ** Vocabulary of the properties *)

(** The state after [n] more readings of the clock: nothing else moved. *)
Definition advance (n : nat) (s : State) : State :=
  {| cache := cache s; lastApiCall := lastApiCall s;
     ticks := (n + ticks s)%nat; requests := requests s |}.

(** A state with the same [cache], [lastApiCall] and request log. *)
Definition same_store (s s' : State) : Prop :=
  cache s' = cache s /\ lastApiCall s' = lastApiCall s /\ requests s' = requests s.

Definition minutes (n : Z) : Z := n * 60 * 1000.

(** The effective TTL in the specification's words: 30 minutes for the alt
    provider, 30 minutes for the primary provider's daily energy, 10 minutes
    for every other metric of the primary provider. *)
Definition spec_effectiveTTL (provider metric : string) : Z :=
  if String.eqb provider "solcast" then minutes 30
  else if String.eqb metric "watt_hours_day" then minutes 30
  else minutes 10.

(** The minimum interval in the specification's words: 30 minutes for the
    alt provider, 5 minutes for the primary provider. *)
Definition spec_minInterval (provider : string) : Z :=
  if String.eqb provider "solcast" then minutes 30 else minutes 5.

(** Where the gate of [doRequest] sends a call: [Some sf] when it goes on to
    the provider, [sf] being the state at that moment; [None] when it answers
    from the cache. *)
Definition fetch_path (host : Host) (cfg : InstanceSettings)
    (query : MyQuery) (loc : ResolvedLocation) (s : State) : option State :=
  let provider := provider_of cfg in
  match cache s !! cacheKey_of host cfg query loc with
  | None => Some (advance 1 s)
  | Some c =>
      if clock host (ticks s) - entry_timestamp c
         <? getEffectiveCacheTTL provider (or_str (metric query) "watts")
      then None
      else if clock host (S (ticks s)) - default 0 (lastApiCall s !! provider)
              <? minIntervalBetweenCalls provider
      then None
      else Some (advance 2 s)
  end.

(** The normalized timestamp of a key and the point it stands for. *)
Definition timeOf (host : Host) (timestamp : string) : Z :=
  default 0 (Date_parse host timestamp).

Definition toRow (host : Host) (e : string * jsval) : Z * jsval :=
  (timeOf host (fst e), snd e).

(** The compare function [formatAsTimeSeries] sorts with. *)
Definition byTime (host : Host) (a b : string * jsval) : option Z :=
  time_sub (parseTimestamp host (fst a)) (parseTimestamp host (fst b)).

(** The time filter [formatAsTimeSeries] builds for a period, [now] being
    the reading of the clock it takes. *)
Definition code_filter (host : Host) (now : Z) (period : string) (timestamp : string) : bool :=
  if String.eqb period "all" then true
  else
    let targetDate := targetDateFrom host now period in
    dayFilter host (setHours (LocalTZA host) targetDate 0 0 0 0)
      (setHours (LocalTZA host) targetDate 23 59 59 999) timestamp.

(** The forecast periods in the specification's words: [all], or the local
    day [offset] days after today, [today] being 0 and [day+6] being 6. *)
Inductive window :=
| AllDays
| LocalDay (offset : Z).

Definition spec_window (period : string) : option window :=
  if String.eqb period "all" then Some AllDays
  else if String.eqb period "today" then Some (LocalDay 0)
  else if String.eqb period "tomorrow" then Some (LocalDay 1)
  else if String.eqb period "day+2" then Some (LocalDay 2)
  else if String.eqb period "day+3" then Some (LocalDay 3)
  else if String.eqb period "day+4" then Some (LocalDay 4)
  else if String.eqb period "day+5" then Some (LocalDay 5)
  else if String.eqb period "day+6" then Some (LocalDay 6)
  else None.

(** [t] lies on the local wall-clock day [offset] days after the day of
    [now], from 00:00:00.000 to 23:59:59.999. *)
Definition in_window (tza now : Z) (w : window) (t : Z) : bool :=
  match w with
  | AllDays => true
  | LocalDay offset =>
      let day := Day (LocalTime tza now) + offset in
      (MakeDate day (MakeTime 0 0 0 0) <=? LocalTime tza t)
      && (LocalTime tza t <=? MakeDate day (MakeTime 23 59 59 999))
  end.

(** Per-target reporting, as the specification words it: every target whose
    resolution is fulfilled has its frame in the batch result. *)
Definition reports_per_target (host : Host) (cfg : InstanceSettings)
    (targets : list MyQuery) (from to : Z) (order : list nat) (s : State) : Prop :=
  forall i frame,
    fst (settle_targets host cfg targets from to s) !! i = Some (inr frame) ->
    exists resp,
      snd (query host cfg targets from to order s) = inr resp
      /\ data resp !! i = Some frame.

(** The key under which the alt-provider adapter stores a forecast. *)
Definition solcast_key (host : Host) (f : SolcastForecast) : string :=
  time_toString (solcast_timestamp host f).

(** The forecast whose watts the adapter keeps under a key: the last one of
    the response that has the key. *)
Definition last_forecast_at (host : Host) (fs : list SolcastForecast) (k : string)
    : option SolcastForecast :=
  List.find (fun f => String.eqb (solcast_key host f) k) (rev fs).

(** A forecast whose key the last debug log of the adapter can format: its
    [period_end] parses, and its canonical timestamp, taken back to
    milliseconds, is a time value. *)
Definition formats (host : Host) (f : SolcastForecast) : Prop :=
  exists p,
    Date_parse host (period_end f) = Some p
    /\ Z.abs ((p / 1000 - 1800) * 1000) <= 8640000000000000.

(** The number with sign [s] and magnitude [m]. *)
Definition signed (s : bool) (m : positive) : Z :=
  if s then - Z.pos m else Z.pos m.

(** The integer a float is, when it is one: [m * 2^e] for an exponent that
    is not negative, [m / 2^(-e)] when that division is exact. *)
Definition integer_of_float (x : float) : option Z :=
  match Prim2SF x with
  | S754_zero _ => Some 0
  | S754_finite s m e =>
      if 0 <=? e then Some (signed s m * 2 ^ e)
      else if signed s m mod 2 ^ (- e) =? 0 then Some (signed s m / 2 ^ (- e))
      else None
  | _ => None
  end.

(** An absent metric as the specification words it: no error and no
    point. *)
Definition absent_metric_gives_no_points (host : Host) (allData : jsval)
    (query : MyQuery) (s : State) : Prop :=
  index allData (or_str (metric query) "watts") = None ->
  exists s' frame,
    exec host (formatAsTimeSeries host allData query) s = (s', inr frame)
    /\ rows frame = [].

(** A run that leaves [cache] and [lastApiCall] as they were in [s0],
    whatever the backend answers and whenever it is resumed on such a
    state. *)
Definition keeps (s0 s : State) : Prop :=
  cache s = cache s0 /\ lastApiCall s = lastApiCall s0.

Inductive KeepsRun {A} (s0 : State) : Run A -> Prop :=
| KeepsDone s o : keeps s0 s -> KeepsRun s0 (Done s o)
| KeepsAwait s n url k :
    keeps s0 s ->
    (forall resp s', keeps s0 s' -> KeepsRun s0 (k resp s')) ->
    KeepsRun s0 (Await s n url k).

(** *** Vocabulary of the further properties *)

(** The parameters [doRequest] takes from a configured location. *)
Definition resolved_of (loc : SolarLocation) : ResolvedLocation :=
  {| res_latitude := loc_latitude loc;
     res_longitude := loc_longitude loc;
     res_declination := loc_declination loc;
     res_azimuth := loc_azimuth loc;
     res_kwp := loc_kwp loc |}.

(** The query names the configured location [id] (and does not ask for its
    inline parameters instead). *)
Definition references (query : MyQuery) (id : string) : bool :=
  truthy_ostr (locationId query)
  && negb (default false (useCustomLocation query))
  && bool_decide (locationId query = Some id).

Definition notFound (id : string) : thrown :=
  ErrorObj ("Location with ID " +:+ id +:+ " not found in datasource configuration").

(** The state after one more request. *)
Definition issue (url : string) (s : State) : State :=
  {| cache := cache s; lastApiCall := lastApiCall s; ticks := ticks s;
     requests := requests s ++ [url] |}.

(** The endpoint paths of the primary provider. *)
Definition endpoint_params (host : Host) (lat lon dec az kw : float) : string :=
  Number_toString host lat +:+ "/" +:+ Number_toString host lon +:+ "/"
  +:+ Number_toString host dec +:+ "/" +:+ Number_toString host az +:+ "/"
  +:+ Number_toString host kw.

Definition estimate_path (host : Host) (lat lon dec az kw : float) : string :=
  "/estimate/" +:+ endpoint_params host lat lon dec az kw.

Definition history_path (host : Host) (lat lon dec az kw : float) (first last : string)
    : string :=
  ("/history/watthours/" +:+ endpoint_params host lat lon dec az kw)
  +:+ "/" +:+ first +:+ "/" +:+ last.

(** What one request of the primary provider comes to: the rejection of the
    backend, or what [processForecastSolarData] makes of the body (it does
    not look at the state). *)
Definition attempt (host : Host) (n : nat) (url : string) (dataType metric : string)
    : thrown + jsval :=
  match backendGet host n url with
  | inl e => inl e
  | inr body =>
      snd (exec host (processForecastSolarData body dataType metric)
             {| cache := ∅; lastApiCall := ∅; ticks := 0; requests := [] |})
  end.

(** The error a failed historical request is turned into. *)
Definition historical_failure (e : thrown) : thrown :=
  ErrorObj ("Historical data is only available with a paid API key. Error: "
            +:+ error_message e).

Definition needs_paid_key : thrown :=
  ErrorObj "Historical data requires a paid API key. Please configure an API key in the datasource settings.".

Definition energy_only (metric : string) : thrown :=
  ErrorObj ("Historical data is only available for energy metrics (watthours), not for "
            +:+ metric).

(** The provider call [testDatasource] makes, with its fixed parameters. *)
Definition probe (host : Host) (cfg : InstanceSettings) : M jsval :=
  if bool_decide (jsonData_provider cfg = Some "solcast")
  then fetchSolcastData host cfg 51.13 10.42 (Some "test-site-id")
  else fetchForecastSolarData host cfg 51.13 10.42 30 180 5.0 "forecast" "watts" None None.

(** [testDatasource] stops before the provider call: the alt provider is
    configured and no API key is stored. *)
Definition test_stops_early (cfg : InstanceSettings) : bool :=
  bool_decide (jsonData_provider cfg = Some "solcast")
  && negb (bool_decide (secureJsonFields_apiKey cfg = Some true)).

(** The URL of a forecast request of the primary provider. *)
Definition estimate_url (host : Host) (cfg : InstanceSettings) (loc : ResolvedLocation)
    : string :=
  proxyUrl cfg (if hasApiKey cfg then "forecast-solar-paid" else "forecast-solar-free")
    (estimate_path host (res_latitude loc) (res_longitude loc) (res_declination loc)
       (res_azimuth loc) (res_kwp loc)).

(** ** A host and a configuration to evaluate the model on *)

Module Demo.

(** Prints a number as mantissa and binary exponent (injective, which is all
    a cache key needs). *)
Definition show_float (x : float) : string :=
  match Prim2SF x with
  | S754_zero _ => "0"
  | S754_infinity s => if s then "-Infinity" else "Infinity"
  | S754_nan => "NaN"
  | S754_finite s m e =>
      (if s then "-" else "") +:+ Z_toString (Z.pos m) +:+ "p" +:+ Z_toString e
  end.

(** The scenario of the specification: one alt-provider entry. *)
Definition solcast_body : Response :=
  {| result := None;
     forecasts := Some [ {| period_end := "2025-07-06T11:30:00Z"; pv_estimate := 0.5%float |} ] |}.

(** A response of the alt provider whose one entry has no date. *)
Definition garbled_body : Response :=
  {| result := None;
     forecasts := Some [ {| period_end := "bad"; pv_estimate := 0.6%float |} ] |}.

(** A response with one entry without date before three dated ones, which
    are not in order of time. *)
Definition mixed_body : Response :=
  {| result := None;
     forecasts :=
       Some [ {| period_end := "bad"; pv_estimate := 0.6%float |};
              {| period_end := "2025-07-06T12:30:00Z"; pv_estimate := 0.9%float |};
              {| period_end := "2025-07-06T11:30:00Z"; pv_estimate := 0.5%float |};
              {| period_end := "2025-07-06T12:00:00Z"; pv_estimate := 0.7%float |} ] |}.

(** Local time two hours ahead of UTC; the clock starts at [start] and every
    reading is a second later; every request settles as [answer]. *)
Definition host_at (start : Z) (answer : thrown + Response) : Host :=
  {| Date_parse := parse_iso 7200000;
     Number_toString := show_float;
     LocalTZA := 7200000;
     clock := fun n => start + 1000 * Z.of_nat n;
     backendGet := fun _ _ => answer;
     toISOString_RangeError := "Invalid time value" |}.

(** 2025-07-06 at 10:00:00 UTC. *)
Definition T0 : Z := 1751796000000.

(** The clock starts at [T0]; every request is answered with
    [solcast_body]. *)
Definition host : Host := host_at T0 (inr solcast_body).

(** The same host with a backend that rejects every request. *)
Definition host_down : Host := host_at T0 (inl (FetchError 502 "Bad Gateway")).

Definition solcast_cfg : InstanceSettings :=
  {| uid := "ds1"; jsonData_provider := Some "solcast"; jsonData_locations := None;
     jsonData_hasApiKey := false; secureJsonFields_apiKey := Some true |}.

Definition primary_cfg : InstanceSettings :=
  {| uid := "ds1"; jsonData_provider := None; jsonData_locations := None;
     jsonData_hasApiKey := false; secureJsonFields_apiKey := None |}.

Definition blank_query : MyQuery :=
  {| refId := "A"; metric := None; dataType := None; locationId := None;
     useCustomLocation := None; latitude := None; longitude := None;
     declination := None; azimuth := None; kwp := None; solcastSiteId := None;
     startDate := None; endDate := None; forecastPeriod := None |}.

Definition with_period (p : string) (q : MyQuery) : MyQuery :=
  {| refId := refId q; metric := metric q; dataType := dataType q;
     locationId := locationId q; useCustomLocation := useCustomLocation q;
     latitude := latitude q; longitude := longitude q; declination := declination q;
     azimuth := azimuth q; kwp := kwp q; solcastSiteId := solcastSiteId q;
     startDate := startDate q; endDate := endDate q; forecastPeriod := Some p |}.

Definition with_metric (m : string) (q : MyQuery) : MyQuery :=
  {| refId := refId q; metric := Some m; dataType := dataType q;
     locationId := locationId q; useCustomLocation := useCustomLocation q;
     latitude := latitude q; longitude := longitude q; declination := declination q;
     azimuth := azimuth q; kwp := kwp q; solcastSiteId := solcastSiteId q;
     startDate := startDate q; endDate := endDate q; forecastPeriod := forecastPeriod q |}.

Definition default_loc : ResolvedLocation :=
  {| res_latitude := 51.13; res_longitude := 10.42; res_declination := 30;
     res_azimuth := 180; res_kwp := 5.0 |}.

(** An inline location with a horizontal panel: tilt zero. *)
Definition flat_panel_query : MyQuery :=
  {| refId := "A"; metric := None; dataType := None; locationId := None;
     useCustomLocation := Some true;
     latitude := Some 48.1%float; longitude := Some 11.5%float;
     declination := Some 0%float; azimuth := Some 180%float; kwp := Some 5.0%float;
     solcastSiteId := None;
     startDate := None; endDate := None; forecastPeriod := None |}.

(** A canonical result with a key that is no timestamp. *)
Definition odd_result : jsval :=
  JObj [("watts", JObj [("2025-07-06 10:00:00", JNum 500); ("soon", JNum 5)])].

(** A query for a location that is not configured. *)
Definition unknown_location_query : MyQuery :=
  {| refId := "B"; metric := None; dataType := None; locationId := Some "loc_x";
     useCustomLocation := None; latitude := None; longitude := None;
     declination := None; azimuth := None; kwp := None; solcastSiteId := None;
     startDate := None; endDate := None; forecastPeriod := None |}.

Definition empty_state : State :=
  {| cache := ∅; lastApiCall := ∅; ticks := 0; requests := [] |}.

(** A canonical result of the primary provider, entries out of order. *)
Definition sample_watts : jsval :=
  JObj [("2025-07-06 11:00:00", JNum 700); ("2025-07-06 10:00:00", JNum 500);
        ("2025-07-07 10:00:00", JNum 100)].

Definition sample_result : jsval := JObj [("watts", sample_watts)].

(** A state in which the default query of the primary provider was fetched
    at the clock's start. *)
Definition warm_state : State :=
  {| cache := {[ cacheKey_of host primary_cfg blank_query default_loc :=
                   {| entry_data := sample_result; entry_timestamp := T0 |} ]};
     lastApiCall := {[ "forecast.solar" := T0 ]};
     ticks := 0; requests := [] |}.

(** The daily-energy query of the primary provider, fetched at [T0]. *)
Definition daily_query : MyQuery := with_metric "watt_hours_day" blank_query.

Definition daily_state : State :=
  {| cache := {[ cacheKey_of host primary_cfg daily_query default_loc :=
                   {| entry_data := sample_result; entry_timestamp := T0 |} ]};
     lastApiCall := {[ "forecast.solar" := T0 ]};
     ticks := 0; requests := [] |}.

(** A state whose entry is forty minutes old while the provider was called
    two minutes ago. *)
Definition stale_state : State :=
  {| cache := {[ cacheKey_of host primary_cfg blank_query default_loc :=
                   {| entry_data := sample_result;
                      entry_timestamp := T0 - minutes 40 |} ]};
     lastApiCall := {[ "forecast.solar" := T0 - minutes 2 ]};
     ticks := 0; requests := [] |}.

End Demo.

(** ** Configured locations to evaluate the editors on *)

Module Fixture.

Definition roof : SolarLocation :=
  {| loc_id := "loc_1"; loc_name := "Roof"; loc_latitude := 48.1; loc_longitude := 11.5;
     loc_declination := 0; loc_azimuth := 180; loc_kwp := 9.8 |}.

Definition shed : SolarLocation :=
  {| loc_id := "loc_2"; loc_name := "Shed"; loc_latitude := 48.2; loc_longitude := 11.6;
     loc_declination := 35; loc_azimuth := 90; loc_kwp := 2.4 |}.

Definition cfg : InstanceSettings :=
  {| uid := "ds1"; jsonData_provider := None; jsonData_locations := Some [roof; shed];
     jsonData_hasApiKey := false; secureJsonFields_apiKey := None |}.

Definition paid_cfg : InstanceSettings :=
  {| uid := "ds1"; jsonData_provider := None; jsonData_locations := None;
     jsonData_hasApiKey := true; secureJsonFields_apiKey := Some true |}.

Definition at_location (id : string) : MyQuery :=
  {| refId := "A"; metric := None; dataType := None; locationId := Some id;
     useCustomLocation := Some false; latitude := None; longitude := None;
     declination := None; azimuth := None; kwp := None; solcastSiteId := None;
     startDate := None; endDate := None; forecastPeriod := None |}.

Definition solcast_query : MyQuery :=
  {| refId := "A"; metric := None; dataType := None; locationId := None;
     useCustomLocation := None; latitude := None; longitude := None;
     declination := None; azimuth := None; kwp := None; solcastSiteId := Some "site-1";
     startDate := None; endDate := None; forecastPeriod := None |}.

(** An entry forty minutes old, stored right after the provider's last
    call. *)
Definition expired_state : State :=
  {| cache := {[ cacheKey_of Demo.host Demo.primary_cfg Demo.blank_query Demo.default_loc :=
                   {| entry_data := Demo.sample_result;
                      entry_timestamp := Demo.T0 - minutes 40 |} ]};
     lastApiCall := {[ "forecast.solar" := Demo.T0 - minutes 40 - 1 ]};
     ticks := 0; requests := [] |}.

End Fixture.

(** ** The calendar on the scenario's date *)

Example parse_iso_scenario :
  parse_iso 0 "2025-07-06T11:30:00Z" = Some 1751801400000.
Proof. vm_compute. reflexivity. Qed.

Example toISODate_scenario : toISODate 1751801400000 = "2025-07-06".
Proof. vm_compute. reflexivity. Qed.

(** ** The scenarios of the specification, evaluated *)

(** A daily-energy entry fetched at [T0]: a hit twenty minutes later, a
    fetch after thirty-one minutes. *)
Example scenario_daily_hit :
  fetch_path (Demo.host_at (Demo.T0 + minutes 20) (inr Demo.solcast_body))
    Demo.primary_cfg Demo.daily_query Demo.default_loc Demo.daily_state
  = None.
Proof. vm_compute. reflexivity. Qed.

Example scenario_daily_miss :
  ticks <$> fetch_path (Demo.host_at (Demo.T0 + minutes 31) (inr Demo.solcast_body))
              Demo.primary_cfg Demo.daily_query Demo.default_loc Demo.daily_state
  = Some 2%nat.
Proof. vm_compute. reflexivity. Qed.

(** A location id that is not configured: the call fails before anything
    else happens. *)
Example scenario_unknown_location :
  doRequest Demo.host Demo.primary_cfg Demo.unknown_location_query 0 0 Demo.empty_state
  = Done Demo.empty_state
      (inl (ErrorObj "Location with ID loc_x not found in datasource configuration")).
Proof. vm_compute. reflexivity. Qed.

(** ** Running computations *)

Section Running.

Context (host : Host).

Lemma drive_bindRun {A B} (r : Run A) (f : A -> M B) :
  drive host (bindRun r f) =
  match drive host r with
  | (s, inr a) => drive host (f a s)
  | (s, inl e) => (s, inl e)
  end.
Proof.
  induction r as [s [e|a]|s n url k IH]; simpl; auto.
Qed.

Lemma exec_bind {A B} (m : M A) (f : A -> M B) (s : State) :
  exec host (bind m f) s =
  match exec host m s with
  | (s', inr a) => exec host (f a) s'
  | (s', inl e) => (s', inl e)
  end.
Proof. unfold exec, bind. apply drive_bindRun. Qed.

Lemma drive_catchRun {A} (r : Run A) (h : thrown -> M A) :
  drive host (catchRun r h) =
  match drive host r with
  | (s, inr a) => (s, inr a)
  | (s, inl e) => drive host (h e s)
  end.
Proof.
  induction r as [s [e|a]|s n url k IH]; simpl; auto.
Qed.

Lemma exec_try_catch {A} (m : M A) (h : thrown -> M A) (s : State) :
  exec host (try_catch m h) s =
  match exec host m s with
  | (s', inr a) => (s', inr a)
  | (s', inl e) => exec host (h e) s'
  end.
Proof. unfold exec, try_catch. apply drive_catchRun. Qed.

(** Catching and throwing again changes nothing. *)
Lemma exec_rethrow {A} (m : M A) (s : State) :
  exec host (try_catch m (fun e => throw e)) s = exec host m s.
Proof.
  rewrite exec_try_catch. destruct (exec host m s) as [s' [e|a]]; reflexivity.
Qed.

Lemma keeps_refl s : keeps s s.
Proof. split; reflexivity. Qed.

Lemma KeepsRun_bind {A B} s0 (r : Run A) (f : A -> M B) :
  KeepsRun s0 r ->
  (forall a s, keeps s0 s -> KeepsRun s0 (f a s)) ->
  KeepsRun s0 (bindRun r f).
Proof.
  intros Hr Hf. induction Hr as [s [e|a] Hs|s n url k Hs Hk IH]; simpl.
  - constructor; exact Hs.
  - apply Hf; exact Hs.
  - constructor; [exact Hs|]. intros resp s' Hs'. apply IH; exact Hs'.
Qed.

Lemma KeepsRun_catch {A} s0 (r : Run A) (h : thrown -> M A) :
  KeepsRun s0 r ->
  (forall e s, keeps s0 s -> KeepsRun s0 (h e s)) ->
  KeepsRun s0 (catchRun r h).
Proof.
  intros Hr Hh. induction Hr as [s [e|a] Hs|s n url k Hs Hk IH]; simpl.
  - apply Hh; exact Hs.
  - constructor; exact Hs.
  - constructor; [exact Hs|]. intros resp s' Hs'. apply IH; exact Hs'.
Qed.

Lemma KeepsRun_drive {A} s0 (r : Run A) :
  KeepsRun s0 r -> keeps s0 (fst (drive host r)).
Proof.
  induction 1 as [s o Hs|s n url k Hs Hk IH]; simpl; [exact Hs|].
  apply IH; exact Hs.
Qed.

End Running.

(** ** The provider adapters leave the store alone *)

Section Providers.

Context (host : Host) (cfg : InstanceSettings).

Lemma keeps_ret {A} s0 (a : A) s : keeps s0 s -> KeepsRun s0 (ret a s).
Proof. intros H. constructor. exact H. Qed.

Lemma keeps_throw {A} s0 e s : keeps s0 s -> KeepsRun (A := A) s0 (throw e s).
Proof. intros H. constructor. exact H. Qed.

Lemma keeps_Date_now s0 s : keeps s0 s -> KeepsRun s0 (Date_now host s).
Proof. intros H. constructor. exact H. Qed.

Lemma keeps_backend_get s0 url s : keeps s0 s -> KeepsRun s0 (backend_get url s).
Proof.
  intros H. constructor; [exact H|]. intros resp s' H'. constructor. exact H'.
Qed.

Lemma keeps_processForecastSolarData s0 body dataType metric s :
  keeps s0 s -> KeepsRun s0 (processForecastSolarData body dataType metric s).
Proof.
  intros H. unfold processForecastSolarData.
  repeat case_match; first [apply keeps_ret | apply keeps_throw]; exact H.
Qed.

Lemma keeps_fetchSolcastData s0 lat lon site s :
  keeps s0 s -> KeepsRun s0 (fetchSolcastData host cfg lat lon site s).
Proof.
  intros H. unfold fetchSolcastData.
  repeat case_match; try (apply keeps_throw; exact H).
  apply KeepsRun_bind; [apply keeps_backend_get; exact H|].
  intros body s' H'. cbv zeta.
  destruct (existsb _ _); [apply keeps_throw|apply keeps_ret]; exact H'.
Qed.

Lemma keeps_fetchForecastSolarData s0 lat lon dec az kw dataType metric sd ed s :
  keeps s0 s ->
  KeepsRun s0 (fetchForecastSolarData host cfg lat lon dec az kw dataType metric sd ed s).
Proof.
  intros H. unfold fetchForecastSolarData, fetchForecastSolarDataViaProxy.
  assert (Hget : forall url s1, keeps s0 s1 ->
            KeepsRun s0 ((do body <- backend_get url;
                          processForecastSolarData body dataType metric) s1)).
  { intros url s1 H1. apply KeepsRun_bind; [apply keeps_backend_get; exact H1|].
    intros body s2 H2. apply keeps_processForecastSolarData. exact H2. }
  case_match; [apply keeps_throw; exact H|].
  apply KeepsRun_bind.
  - repeat case_match; first [apply keeps_throw | apply keeps_ret]; exact H.
  - intros endpointPath s1 Hs1. apply KeepsRun_catch; [apply Hget; exact Hs1|].
    intros e s2 Hs2. repeat case_match; try (apply keeps_throw; exact Hs2).
    all: apply KeepsRun_catch; [apply Hget; exact Hs2|].
    all: intros e' s3 Hs3; apply keeps_throw; exact Hs3.
Qed.

Lemma keeps_callProvider s0 query loc s :
  keeps s0 s -> KeepsRun s0 (callProvider host cfg query loc s).
Proof.
  intros H. unfold callProvider. case_match.
  - apply keeps_fetchSolcastData. exact H.
  - apply keeps_fetchForecastSolarData. exact H.
Qed.

(** Whatever the provider call does, [cache] and [lastApiCall] are as
    before. *)
Lemma callProvider_keeps query loc s s' o :
  exec host (callProvider host cfg query loc) s = (s', o) ->
  cache s' = cache s /\ lastApiCall s' = lastApiCall s.
Proof.
  intros Hx.
  pose proof (KeepsRun_drive host s _ (keeps_callProvider s query loc s (keeps_refl s))) as Hk.
  unfold exec in Hx. rewrite Hx in Hk. exact Hk.
Qed.

End Providers.

(** ** The cache and rate gate *)

Section Gate.

Context (host : Host) (cfg : InstanceSettings).

Lemma getEffectiveCacheTTL_spec provider metric :
  getEffectiveCacheTTL provider metric = spec_effectiveTTL provider metric.
Proof.
  unfold getEffectiveCacheTTL, spec_effectiveTTL.
  destruct (String.eqb provider "solcast"); [reflexivity|].
  destruct (String.eqb metric "watt_hours_day"); reflexivity.
Qed.

Lemma minIntervalBetweenCalls_spec provider :
  minIntervalBetweenCalls provider = spec_minInterval provider.
Proof.
  unfold minIntervalBetweenCalls, spec_minInterval.
  destruct (String.eqb provider "solcast"); reflexivity.
Qed.

(** The assembler never waits and never throws. *)
Lemma formatAsTimeSeries_done allData query s :
  exists n frame,
    formatAsTimeSeries host allData query s = Done (advance n s) (inr frame).
Proof.
  unfold formatAsTimeSeries.
  destruct (String.eqb (or_str (forecastPeriod query) "all") "all") eqn:Hall.
  - exists 0%nat. eexists. unfold bind, ret. simpl. destruct s; reflexivity.
  - exists 1%nat. eexists. unfold bind, ret, getTargetDateFromPeriod, bind, Date_now.
    simpl. reflexivity.
Qed.

(** When the gate goes on to the provider, [obtainData] is the fetch branch
    run from that moment. *)
Lemma obtainData_fetch query loc s sf :
  fetch_path host cfg query loc s = Some sf ->
  obtainData host cfg query loc s = fetchFresh host cfg query loc sf.
Proof.
  unfold fetch_path, obtainData, bind, get_state. simpl.
  destruct (cache s !! cacheKey_of host cfg query loc) as [c|] eqn:Hc; simpl.
  - destruct (_ <? getEffectiveCacheTTL _ _) eqn:Hage; [discriminate|].
    destruct (_ <? minIntervalBetweenCalls _) eqn:Hgate; [discriminate|].
    intros [= <-]. reflexivity.
  - intros [= <-]. reflexivity.
Qed.

(** When it does not, the call is answered with the cached data and the
    store is untouched. *)
Lemma obtainData_cached query loc s :
  fetch_path host cfg query loc s = None ->
  exists c n,
    cache s !! cacheKey_of host cfg query loc = Some c
    /\ obtainData host cfg query loc s = Done (advance n s) (inr (entry_data c)).
Proof.
  unfold fetch_path, obtainData, bind, get_state. simpl.
  destruct (cache s !! cacheKey_of host cfg query loc) as [c|] eqn:Hc; simpl;
    [|discriminate].
  destruct (_ <? getEffectiveCacheTTL _ _) eqn:Hage.
  - intros _. exists c, 1%nat. split; reflexivity.
  - destruct (_ <? minIntervalBetweenCalls _) eqn:Hgate; [|discriminate].
    intros _. exists c, 2%nat. split; reflexivity.
Qed.

(** [doRequest] on a cached answer: the frame of the cached data. *)
Lemma doRequest_of_cached query from to loc s n d :
  resolveLocation cfg query = inr loc ->
  obtainData host cfg query loc s = Done (advance n s) (inr d) ->
  doRequest host cfg query from to s = formatAsTimeSeries host d query (advance n s).
Proof.
  intros Hloc Hob. unfold doRequest. rewrite Hloc.
  unfold try_catch, bind. rewrite Hob. simpl.
  destruct (formatAsTimeSeries_done d query (advance n s)) as (m & frame & ->).
  reflexivity.
Qed.

(** ... and then [doRequest] only read the clock: no request was issued and
    neither map was written. *)
Lemma doRequest_cached_same_store query from to loc s n d :
  resolveLocation cfg query = inr loc ->
  obtainData host cfg query loc s = Done (advance n s) (inr d) ->
  same_store s (fst (exec host (doRequest host cfg query from to) s)).
Proof.
  intros Hloc Hob. unfold exec.
  rewrite (doRequest_of_cached query from to loc s n d Hloc Hob).
  destruct (formatAsTimeSeries_done d query (advance n s)) as (m & frame & ->).
  repeat split; reflexivity.
Qed.

(** A fresh entry answers the call: one reading of the clock, no wait. *)
Lemma obtainData_hit query loc c s :
  cache s !! cacheKey_of host cfg query loc = Some c ->
  clock host (ticks s) - entry_timestamp c
    < getEffectiveCacheTTL (provider_of cfg) (or_str (metric query) "watts") ->
  obtainData host cfg query loc s = Done (advance 1 s) (inr (entry_data c)).
Proof.
  intros Hc Hage. unfold obtainData, bind, get_state. simpl. rewrite Hc. simpl.
  apply Z.ltb_lt in Hage. rewrite Hage. reflexivity.
Qed.

End Gate.

(** *** C1 *)

(** C1: a call whose cache key holds an entry stored at [T0], made at a time
    [T] with [T - T0] below the effective TTL (30 minutes for the alt
    provider, 30 minutes for the primary provider's [watt_hours_day], 10
    minutes for its other metrics), is answered with the stored canonical
    result unchanged and without any call of the fetcher: [obtainData] is
    done at once, having read the clock once and touched nothing else, and
    [doRequest] is the assembly of the stored result. *)
Theorem C1_cache_hit_within_ttl :
  forall (host : Host) (cfg : InstanceSettings) (query : MyQuery) (from to : Z)
         (loc : ResolvedLocation) (c : CacheEntry) (st : State),
    resolveLocation cfg query = inr loc ->
    cache st !! cacheKey_of host cfg query loc = Some c ->
    clock host (ticks st) - entry_timestamp c
      < spec_effectiveTTL (provider_of cfg) (or_str (metric query) "watts") ->
    obtainData host cfg query loc st = Done (advance 1 st) (inr (entry_data c))
    /\ doRequest host cfg query from to st
       = formatAsTimeSeries host (entry_data c) query (advance 1 st)
    /\ same_store st (fst (exec host (doRequest host cfg query from to) st)).
Proof.
  intros host cfg query from to loc c st Hloc Hc Hage.
  assert (Hob : obtainData host cfg query loc st
                = Done (advance 1 st) (inr (entry_data c))).
  { apply obtainData_hit; [exact Hc|]. rewrite getEffectiveCacheTTL_spec. exact Hage. }
  split; [exact Hob|]. split.
  - eapply doRequest_of_cached; eassumption.
  - eapply doRequest_cached_same_store; eassumption.
Qed.

(** C1 at the warm state: the default query of the primary provider, one
    second after the fetch. *)
Lemma C1_cache_hit_within_ttl_witness :
  obtainData Demo.host Demo.primary_cfg Demo.blank_query Demo.default_loc Demo.warm_state
  = Done (advance 1 Demo.warm_state) (inr Demo.sample_result)
  /\ doRequest Demo.host Demo.primary_cfg Demo.blank_query 0 0 Demo.warm_state
     = formatAsTimeSeries Demo.host Demo.sample_result Demo.blank_query
         (advance 1 Demo.warm_state)
  /\ same_store Demo.warm_state
       (fst (exec Demo.host
               (doRequest Demo.host Demo.primary_cfg Demo.blank_query 0 0)
               Demo.warm_state)).
Proof.
  apply (C1_cache_hit_within_ttl Demo.host Demo.primary_cfg Demo.blank_query 0 0
           Demo.default_loc
           {| entry_data := Demo.sample_result; entry_timestamp := Demo.T0 |}
           Demo.warm_state).
  - reflexivity.
  - vm_compute. reflexivity.
  - vm_compute. reflexivity.
Defined.

(** *** C2 *)

(** C2: when the key has a cache entry, however old, and the time since the
    last recorded call to the provider is below the minimum interval (30
    minutes for the alt provider, 5 minutes for the primary one), the call is
    answered with that entry and no provider fetch takes place: [obtainData]
    is done at once and only the clock was read. *)
Theorem C2_rate_gate_serves_stale_entry :
  forall (host : Host) (cfg : InstanceSettings) (query : MyQuery) (from to : Z)
         (loc : ResolvedLocation) (c : CacheEntry) (t0 : Z) (st : State),
    resolveLocation cfg query = inr loc ->
    cache st !! cacheKey_of host cfg query loc = Some c ->
    lastApiCall st !! provider_of cfg = Some t0 ->
    clock host (S (ticks st)) - t0 < spec_minInterval (provider_of cfg) ->
    exists n,
      obtainData host cfg query loc st = Done (advance n st) (inr (entry_data c))
      /\ doRequest host cfg query from to st
         = formatAsTimeSeries host (entry_data c) query (advance n st)
      /\ same_store st (fst (exec host (doRequest host cfg query from to) st)).
Proof.
  intros host cfg query from to loc c t0 st Hloc Hc Hlast Hgap.
  assert (Hpath : fetch_path host cfg query loc st = None).
  { unfold fetch_path. rewrite Hc, Hlast. simpl.
    destruct (_ <? getEffectiveCacheTTL _ _); [reflexivity|].
    rewrite minIntervalBetweenCalls_spec.
    apply Z.ltb_lt in Hgap. rewrite Hgap. reflexivity. }
  destruct (obtainData_cached host cfg query loc st Hpath) as (c' & n & Hc' & Hob).
  rewrite Hc in Hc'. injection Hc' as <-.
  exists n. split; [exact Hob|]. split.
  - eapply doRequest_of_cached; eassumption.
  - eapply doRequest_cached_same_store; eassumption.
Qed.

(** C2 at [Demo.stale_state]: the forty-minute-old entry is served. *)
Lemma C2_rate_gate_serves_stale_entry_witness :
  exists n,
    obtainData Demo.host Demo.primary_cfg Demo.blank_query Demo.default_loc Demo.stale_state
    = Done (advance n Demo.stale_state) (inr Demo.sample_result)
    /\ doRequest Demo.host Demo.primary_cfg Demo.blank_query 0 0 Demo.stale_state
       = formatAsTimeSeries Demo.host Demo.sample_result Demo.blank_query
           (advance n Demo.stale_state)
    /\ same_store Demo.stale_state
         (fst (exec Demo.host
                 (doRequest Demo.host Demo.primary_cfg Demo.blank_query 0 0)
                 Demo.stale_state)).
Proof.
  apply (C2_rate_gate_serves_stale_entry Demo.host Demo.primary_cfg Demo.blank_query 0 0
           Demo.default_loc
           {| entry_data := Demo.sample_result;
              entry_timestamp := Demo.T0 - minutes 40 |}
           (Demo.T0 - minutes 2) Demo.stale_state).
  - reflexivity.
  - vm_compute. reflexivity.
  - vm_compute. reflexivity.
  - vm_compute. reflexivity.
Defined.

(** The stale entry really is past its TTL: the rate gate, not the cache
    check, answers at [Demo.stale_state]. *)
Example stale_state_is_expired :
  obtainData Demo.host Demo.primary_cfg Demo.blank_query Demo.default_loc Demo.stale_state
  = Done (advance 2 Demo.stale_state) (inr Demo.sample_result).
Proof.
  unfold obtainData, bind, get_state. simpl.
  unfold Demo.stale_state at 1. simpl. rewrite lookup_singleton_eq. simpl.
  unfold Demo.stale_state at 1. simpl. rewrite lookup_singleton_eq. reflexivity.
Qed.

(** *** C3 *)

Section FetchBranch.

Context (host : Host) (cfg : InstanceSettings).

(** The fetch branch after the provider call: both timestamps are taken and
    both maps are written only when the call returned data. *)
Lemma exec_fetchFresh query loc sf :
  exec host (fetchFresh host cfg query loc) sf =
  match exec host (callProvider host cfg query loc) sf with
  | (s2, inl e) => (s2, inl e)
  | (s2, inr d) =>
      ({| cache := <[cacheKey_of host cfg query loc :=
                       {| entry_data := d; entry_timestamp := clock host (S (ticks s2)) |}]>
                     (cache s2);
          lastApiCall := <[provider_of cfg := clock host (ticks s2)]> (lastApiCall s2);
          ticks := S (S (ticks s2));
          requests := requests s2 |},
       inr d)
  end.
Proof.
  unfold fetchFresh. rewrite exec_bind.
  destruct (exec host (callProvider host cfg query loc) sf) as [s2 [e|d]]; reflexivity.
Qed.

Lemma exec_doRequest_fetch query from to loc s sf :
  resolveLocation cfg query = inr loc ->
  fetch_path host cfg query loc s = Some sf ->
  exec host (doRequest host cfg query from to) s =
  match exec host (fetchFresh host cfg query loc) sf with
  | (s3, inl e) => (s3, inl e)
  | (s3, inr d) => exec host (formatAsTimeSeries host d query) s3
  end.
Proof.
  intros Hloc Hpath. unfold doRequest. rewrite Hloc.
  rewrite exec_rethrow, exec_bind.
  unfold exec at 1. rewrite (obtainData_fetch host cfg query loc s sf Hpath).
  reflexivity.
Qed.

Lemma fetch_path_keeps query loc s sf :
  fetch_path host cfg query loc s = Some sf ->
  cache sf = cache s /\ lastApiCall sf = lastApiCall s.
Proof.
  unfold fetch_path. repeat case_match; intros [= <-]; split; reflexivity.
Qed.

End FetchBranch.

(** C3: on the fetch path, a failing provider call makes [doRequest] fail
    with the same thrown value and leaves [cache] and [lastApiCall] as they
    were; the two maps are written only when the call returned data, and then
    with the readings of the clock taken after it. *)
Theorem C3_failed_fetch_leaves_store :
  forall (host : Host) (cfg : InstanceSettings) (query : MyQuery) (from to : Z)
         (loc : ResolvedLocation) (st sf s2 : State) (o : thrown + jsval),
    resolveLocation cfg query = inr loc ->
    fetch_path host cfg query loc st = Some sf ->
    exec host (callProvider host cfg query loc) sf = (s2, o) ->
    match o with
    | inl e =>
        exec host (doRequest host cfg query from to) st = (s2, inl e)
        /\ cache s2 = cache st /\ lastApiCall s2 = lastApiCall st
    | inr d =>
        exists s3 frame,
          exec host (doRequest host cfg query from to) st = (s3, inr frame)
          /\ lastApiCall s3 = <[provider_of cfg := clock host (ticks s2)]> (lastApiCall st)
          /\ cache s3 = <[cacheKey_of host cfg query loc :=
                            {| entry_data := d;
                               entry_timestamp := clock host (S (ticks s2)) |}]> (cache st)
    end.
Proof.
  intros host cfg query from to loc st sf s2 o Hloc Hpath Hcall.
  destruct (fetch_path_keeps host cfg query loc st sf Hpath) as [Hc0 Hl0].
  destruct (callProvider_keeps host cfg query loc sf s2 o Hcall) as [Hc1 Hl1].
  rewrite (exec_doRequest_fetch host cfg query from to loc st sf Hloc Hpath).
  rewrite exec_fetchFresh, Hcall.
  destruct o as [e|d].
  - repeat split; congruence.
  - match goal with |- context [exec host (formatAsTimeSeries host d query) ?s] =>
      destruct (formatAsTimeSeries_done host d query s) as (n & frame & Hf)
    end.
    eexists _, frame. unfold exec. rewrite Hf. simpl.
    rewrite Hc1, Hc0, Hl1, Hl0. repeat split; reflexivity.
Qed.

(** C3 with the backend down: the first call of the default query fails with
    the backend's rejection and both maps stay empty. *)
Lemma C3_failed_fetch_leaves_store_witness :
  let s2 := fst (exec Demo.host_down
                   (callProvider Demo.host_down Demo.primary_cfg Demo.blank_query
                      Demo.default_loc)
                   (advance 1 Demo.empty_state)) in
  exec Demo.host_down (doRequest Demo.host_down Demo.primary_cfg Demo.blank_query 0 0)
    Demo.empty_state
  = (s2, inl (FetchError 502 "Bad Gateway"))
  /\ cache s2 = cache Demo.empty_state /\ lastApiCall s2 = lastApiCall Demo.empty_state.
Proof.
  intros s2.
  apply (C3_failed_fetch_leaves_store Demo.host_down Demo.primary_cfg Demo.blank_query 0 0
           Demo.default_loc Demo.empty_state (advance 1 Demo.empty_state) s2
           (inl (FetchError 502 "Bad Gateway"))).
  - reflexivity.
  - reflexivity.
  - vm_compute. reflexivity.
Defined.

(** ** [Promise.all] and [query] *)

Section Batch.

Context {A : Type}.
Implicit Types (os : list (thrown + A)) (order : list nat).

Lemma collect_inr os l : collect os = inr l -> os = map inr l.
Proof.
  revert l. induction os as [|[e|a] os IH]; simpl; intros l H.
  - injection H as <-. reflexivity.
  - discriminate.
  - destruct (collect os) as [e|l'] eqn:Hc; [discriminate|].
    injection H as <-. simpl. f_equal. apply IH. reflexivity.
Qed.

Lemma collect_inl os e : collect os = inl e -> exists j, os !! j = Some (inl e).
Proof.
  induction os as [|[e'|a] os IH]; simpl; intros H.
  - discriminate.
  - injection H as ->. exists 0%nat. reflexivity.
  - destruct (collect os) as [e'|l'] eqn:Hc; [|discriminate].
    injection H as ->. destruct (IH eq_refl) as [j Hj]. exists (S j). exact Hj.
Qed.

Lemma first_reason_Some os order e :
  first_reason os order = Some e -> exists j, os !! j = Some (inl e).
Proof.
  induction order as [|i order IH]; simpl; [discriminate|].
  unfold reason_at. destruct (os !! i) as [[e'|a]|] eqn:Hi; auto.
  intros [= ->]. exists i. exact Hi.
Qed.

Lemma first_reason_None_of_values l order :
  first_reason (map inr l : list (thrown + A)) order = None.
Proof.
  induction order as [|i order IH]; simpl; [reflexivity|].
  unfold reason_at. rewrite list_lookup_fmap.
  destruct (l !! i); simpl; exact IH.
Qed.

(** [Promise.all] is fulfilled exactly when every promise is, and then with
    the values in index order; otherwise it is rejected with the reason of
    one of the rejected promises. *)
Lemma Promise_all_cases order os :
  match Promise_all order os with
  | inr l => os = map inr l
  | inl e => exists j, os !! j = Some (inl e)
  end.
Proof.
  unfold Promise_all. destruct (first_reason os order) as [e|] eqn:Hf.
  - eapply first_reason_Some. exact Hf.
  - destruct (collect os) as [e|l] eqn:Hc.
    + eapply collect_inl. exact Hc.
    + apply collect_inr. exact Hc.
Qed.

Lemma Promise_all_values order l :
  Promise_all order (map inr l : list (thrown + A)) = inr l.
Proof.
  unfold Promise_all. rewrite first_reason_None_of_values.
  induction l as [|a l IH]; simpl; [reflexivity|]. rewrite IH. reflexivity.
Qed.

End Batch.

(** *** C4 *)

(** C4, as the code has it: the batch is fulfilled only when every target's
    resolution is fulfilled, and then reports the frames of all targets in
    target order; when a target's resolution is rejected, the batch as a
    whole is rejected with the reason of a rejected target and reports no
    frame at all. *)
Theorem C4_batch_rejects_as_a_whole :
  forall (host : Host) (cfg : InstanceSettings) (targets : list MyQuery)
         (from to : Z) (order : list nat) (s : State),
    match snd (query host cfg targets from to order s) with
    | inr resp =>
        fst (settle_targets host cfg targets from to s) = map inr (data resp)
    | inl e =>
        exists j, fst (settle_targets host cfg targets from to s) !! j = Some (inl e)
    end.
Proof.
  intros host cfg targets from to order s. unfold query.
  destruct (settle_targets host cfg targets from to s) as [os s'] eqn:Hs. simpl.
  pose proof (Promise_all_cases order os) as H.
  destruct (Promise_all order os) as [e|l]; exact H.
Qed.

(** C4 fails as stated: of two targets, the first names a location that is
    not configured and the second is answered from the cache; the second
    resolution is fulfilled with a frame, yet the batch is rejected and
    reports nothing for it. *)
Lemma C4_counterexample :
  ~ reports_per_target Demo.host Demo.primary_cfg
      [Demo.unknown_location_query; Demo.blank_query] 0 0 [0%nat; 1%nat] Demo.warm_state.
Proof.
  intros H.
  assert (Hk : cache Demo.warm_state
               !! cacheKey_of Demo.host Demo.primary_cfg Demo.blank_query Demo.default_loc
               = Some {| entry_data := Demo.sample_result;
                         entry_timestamp := Demo.T0 |})
    by (vm_compute; reflexivity).
  assert (Hob : obtainData Demo.host Demo.primary_cfg Demo.blank_query Demo.default_loc
                  Demo.warm_state
                = Done (advance 1 Demo.warm_state) (inr Demo.sample_result)).
  { apply (obtainData_hit Demo.host Demo.primary_cfg Demo.blank_query Demo.default_loc _
             Demo.warm_state Hk). vm_compute. reflexivity. }
  pose proof (doRequest_of_cached Demo.host Demo.primary_cfg Demo.blank_query 0 0
                Demo.default_loc Demo.warm_state 1 Demo.sample_result eq_refl Hob) as Hreq.
  unfold reports_per_target, query, settle_targets in H. simpl in H.
  rewrite Hreq in H. simpl in H.
  destruct (H 1%nat _ eq_refl) as (resp & Hresp & _).
  discriminate Hresp.
Qed.

(** ** The sort of [formatAsTimeSeries] *)

Section Sorting.

Context {A : Type} (key : A -> Z) (cmp : A -> A -> option Z).

Lemma sort_insert_Permutation x l : sort_insert cmp x l ≡ₚ x :: l.
Proof.
  induction l as [|y l IH]; simpl; [reflexivity|].
  destruct (cmp_positive (cmp x y)); [|reflexivity].
  rewrite IH. apply perm_swap.
Qed.

Lemma Array_sort_Permutation l : Array_sort cmp l ≡ₚ l.
Proof.
  unfold Array_sort. induction l as [|x l IH]; simpl; [reflexivity|].
  rewrite sort_insert_Permutation, IH. reflexivity.
Qed.

Hypothesis cmp_key : forall a b, cmp a b = Some (key a - key b).

Let le_key : relation A := fun a b => key a <= key b.

Lemma cmp_positive_key a b : cmp_positive (cmp a b) = (key b <? key a).
Proof.
  rewrite cmp_key. simpl.
  destruct (Z.ltb_spec 0 (key a - key b)), (Z.ltb_spec (key b) (key a)); lia || reflexivity.
Qed.

Lemma HdRel_sort_insert a x l :
  le_key a x -> HdRel le_key a l -> HdRel le_key a (sort_insert cmp x l).
Proof.
  intros Hax Hal. destruct l as [|y l]; simpl; [constructor; exact Hax|].
  destruct (cmp_positive (cmp x y)); constructor.
  - inversion Hal; assumption.
  - exact Hax.
Qed.

Lemma sort_insert_Sorted x l :
  Sorted le_key l -> Sorted le_key (sort_insert cmp x l).
Proof.
  induction 1 as [|y l Hl IH Hy]; simpl.
  - repeat constructor.
  - rewrite cmp_positive_key. destruct (Z.ltb_spec (key y) (key x)) as [Hlt|Hge].
    + constructor; [exact IH|]. apply HdRel_sort_insert; [|exact Hy].
      unfold le_key. lia.
    + constructor; [constructor; assumption|]. constructor. exact Hge.
Qed.

Lemma Array_sort_Sorted l : Sorted le_key (Array_sort cmp l).
Proof.
  unfold Array_sort. induction l as [|x l IH]; simpl; [constructor|].
  apply sort_insert_Sorted. exact IH.
Qed.

Lemma Array_sort_keys_Sorted l : Sorted Z.le (map key (Array_sort cmp l)).
Proof.
  apply Sorted_fmap with (R1 := le_key).
  - intros a b Hab. exact Hab.
  - apply Array_sort_Sorted.
Qed.

End Sorting.

(** ** The time-series assembler *)

Section Assembler.

Context (host : Host).

Lemma parseTimestamp_timeOf timestamp :
  parseTimestamp host timestamp = Some (timeOf host timestamp).
Proof.
  unfold parseTimestamp, timeOf. destruct (Date_parse host timestamp); reflexivity.
Qed.

(** The [isNaN] test of the [forEach] never fires: [parseTimestamp] has
    already turned NaN into 0. *)
Lemma parseTimestamp_not_NaN timestamp : isNaN (parseTimestamp host timestamp) = false.
Proof. rewrite parseTimestamp_timeOf. reflexivity. Qed.

Lemma byTime_key a b :
  byTime host a b = Some (timeOf host (fst a) - timeOf host (fst b)).
Proof. unfold byTime. rewrite !parseTimestamp_timeOf. reflexivity. Qed.

Lemma fold_addRow entries frame :
  fold_left (addRow host) entries frame = frame ++ map (toRow host) entries.
Proof.
  revert frame. induction entries as [|e entries IH]; intros frame; simpl.
  - rewrite app_nil_r. reflexivity.
  - rewrite IH. unfold addRow at 1. rewrite parseTimestamp_timeOf.
    rewrite <- app_assoc. reflexivity.
Qed.

(** What [formatAsTimeSeries] returns: the entries of the selected data that
    pass the time filter, sorted by time, each as a row. *)
Lemma formatAsTimeSeries_rows allData query s :
  exists n frame,
    formatAsTimeSeries host allData query s = Done (advance n s) (inr frame)
    /\ rows frame =
       map (toRow host)
         (Array_sort (byTime host)
            (filter (fun e => Is_true (code_filter host (clock host (ticks s))
                                         (or_str (forecastPeriod query) "all") (fst e)))
               (Object_entries (selectData allData (or_str (metric query) "watts"))))).
Proof.
  unfold formatAsTimeSeries, code_filter.
  destruct (String.eqb (or_str (forecastPeriod query) "all") "all") eqn:Hall.
  - exists 0%nat. eexists. unfold bind, ret. simpl. split.
    + destruct s; reflexivity.
    + simpl. rewrite fold_addRow. reflexivity.
  - exists 1%nat. eexists. unfold bind, ret, getTargetDateFromPeriod, bind, Date_now.
    simpl. split; [reflexivity|]. simpl. rewrite fold_addRow. reflexivity.
Qed.

Lemma exec_formatAsTimeSeries allData query s n frame :
  formatAsTimeSeries host allData query s = Done (advance n s) (inr frame) ->
  exec host (formatAsTimeSeries host allData query) s = (advance n s, inr frame).
Proof. intros H. unfold exec. rewrite H. reflexivity. Qed.

End Assembler.

(** ** The day window *)

Section Window.

Context (host : Host).

Let tza := LocalTZA host.

Lemma LocalTime_UTC t : LocalTime tza (UTC tza t) = t.
Proof. unfold LocalTime, UTC. lia. Qed.

(** [d.setDate(d.getDate() + k)] moves the local day by [k]. *)
Lemma Day_setDate now k :
  Day (LocalTime tza (setDate tza now (getDate tza now + k)))
  = Day (LocalTime tza now) + k.
Proof.
  unfold setDate, getDate. rewrite LocalTime_UTC.
  unfold MakeDate, MakeDay_in_month_of, TimeWithinDay.
  set (lt := LocalTime tza now).
  replace (Day lt - (DateFromTime lt - 1) + (DateFromTime lt + k) - 1) with (Day lt + k) by lia.
  unfold Day at 1. unfold msPerDay.
  rewrite Z.add_comm, Z.div_add by lia.
  rewrite Z.mod_div by lia. reflexivity.
Qed.

Lemma dayFilter_window target now k timestamp :
  Day (LocalTime tza target) = Day (LocalTime tza now) + k ->
  dayFilter host (setHours tza target 0 0 0 0) (setHours tza target 23 59 59 999) timestamp
  = in_window tza now (LocalDay k) (timeOf host timestamp).
Proof.
  intros Hday. unfold dayFilter, in_window, setHours. rewrite parseTimestamp_timeOf.
  simpl. rewrite Hday. unfold UTC, LocalTime.
  set (t := timeOf host timestamp). set (day := Day (now + tza) + k).
  f_equal.
  - destruct (Z.leb_spec (MakeDate day (MakeTime 0 0 0 0) - tza) t),
             (Z.leb_spec (MakeDate day (MakeTime 0 0 0 0)) (t + tza)); lia || reflexivity.
  - destruct (Z.leb_spec t (MakeDate day (MakeTime 23 59 59 999) - tza)),
             (Z.leb_spec (t + tza) (MakeDate day (MakeTime 23 59 59 999))); lia || reflexivity.
Qed.

#[local] Arguments setDate : simpl never.
#[local] Arguments setHours : simpl never.
#[local] Arguments getDate : simpl never.
#[local] Arguments dayFilter : simpl never.
#[local] Arguments in_window : simpl never.

(** The labels and offsets of the specification are those of the code's own
    [mapForecastPeriodToDay]. *)
Lemma spec_window_mapForecastPeriodToDay period :
  match spec_window period with
  | Some AllDays => mapForecastPeriodToDay period = "all"
  | Some (LocalDay offset) => mapForecastPeriodToDay period = Z_toString offset
  | None => mapForecastPeriodToDay period = "all"
  end.
Proof.
  unfold spec_window, mapForecastPeriodToDay.
  destruct (String.eqb period "all") eqn:Eall;
    [apply String.eqb_eq in Eall; subst period; reflexivity|].
  destruct (String.eqb period "today"); [reflexivity|].
  destruct (String.eqb period "tomorrow"); [reflexivity|].
  destruct (String.eqb period "day+2"); [reflexivity|].
  destruct (String.eqb period "day+3"); [reflexivity|].
  destruct (String.eqb period "day+4"); [reflexivity|].
  destruct (String.eqb period "day+5"); [reflexivity|].
  destruct (String.eqb period "day+6"); reflexivity.
Qed.

Ltac later_day E :=
  apply String.eqb_eq in E; subst; intros [= <-];
  unfold code_filter, targetDateFrom; simpl;
  apply dayFilter_window; apply Day_setDate.

(** The filter of the code is the window of the specification, for each of
    the eight period labels. *)
Lemma code_filter_window now period w timestamp :
  spec_window period = Some w ->
  code_filter host now (or_str (Some period) "all") timestamp
  = in_window tza now w (timeOf host timestamp).
Proof.
  unfold spec_window.
  destruct (String.eqb period "all") eqn:Eall;
    [apply String.eqb_eq in Eall; subst period; intros [= <-]; reflexivity|].
  destruct (String.eqb period "today") eqn:Etoday;
    [apply String.eqb_eq in Etoday; subst period; intros [= <-];
     unfold code_filter, targetDateFrom; simpl;
     apply dayFilter_window; fold tza; lia|].
  destruct (String.eqb period "tomorrow") eqn:E1; [later_day E1|].
  destruct (String.eqb period "day+2") eqn:E2; [later_day E2|].
  destruct (String.eqb period "day+3") eqn:E3; [later_day E3|].
  destruct (String.eqb period "day+4") eqn:E4; [later_day E4|].
  destruct (String.eqb period "day+5") eqn:E5; [later_day E5|].
  destruct (String.eqb period "day+6") eqn:E6; [later_day E6|].
  discriminate.
Qed.

End Window.

(** *** C5 *)

(** C5: for each of the period labels, the emitted rows are exactly the
    points of the requested metric's map in the canonical result whose
    normalized timestamp lies in the period's window: for [all] every point,
    for the other labels the points on the local wall-clock day, 00:00:00.000
    to 23:59:59.999, that is [offset] days after today ([today] 0, [tomorrow]
    1, [day+2] to [day+6]). *)
Theorem C5_period_selects_local_day :
  forall (host : Host) (allData : jsval) (query : MyQuery) (s : State)
         (period : string) (w : window) (points : list (string * jsval)),
    forecastPeriod query = Some period ->
    spec_window period = Some w ->
    index allData (or_str (metric query) "watts") = Some (JObj points) ->
    exists n frame,
      exec host (formatAsTimeSeries host allData query) s = (advance n s, inr frame)
      /\ rows frame ≡ₚ
         map (toRow host)
           (filter (fun e => Is_true (in_window (LocalTZA host) (clock host (ticks s)) w
                                        (timeOf host (fst e))))
              points).
Proof.
  intros host allData query s period w points Hp Hw Hmetric.
  destruct (formatAsTimeSeries_rows host allData query s) as (n & frame & Hrun & Hrows).
  exists n, frame. split; [apply exec_formatAsTimeSeries; exact Hrun|].
  unfold selectData in Hrows. rewrite Hmetric in Hrows. cbn [truthy Object_entries] in Hrows.
  rewrite Hrows, Hp.
  rewrite (Array_sort_Permutation (byTime host)).
  erewrite list_filter_iff; [reflexivity|].
  intros e. simpl. rewrite (code_filter_window host _ period w _ Hw). reflexivity.
Qed.

(** C5 on the sample of the primary provider, read on 2025-07-06 local time
    with the period [today]. *)
Lemma C5_period_selects_local_day_witness :
  exists n frame,
    exec Demo.host
      (formatAsTimeSeries Demo.host Demo.sample_result
         (Demo.with_period "today" Demo.blank_query)) Demo.empty_state
    = (advance n Demo.empty_state, inr frame)
    /\ rows frame ≡ₚ
       map (toRow Demo.host)
         (filter (fun e => Is_true (in_window (LocalTZA Demo.host)
                                      (clock Demo.host (ticks Demo.empty_state))
                                      (LocalDay 0) (timeOf Demo.host (fst e))))
            (Object_entries Demo.sample_watts)).
Proof.
  apply (C5_period_selects_local_day Demo.host Demo.sample_result
           (Demo.with_period "today" Demo.blank_query) Demo.empty_state "today" (LocalDay 0)
           (Object_entries Demo.sample_watts)).
  - reflexivity.
  - reflexivity.
  - reflexivity.
Defined.

(** The sample on that day: the two points of 2025-07-06, in time order. *)
Example scenario_today :
  snd (exec Demo.host
         (formatAsTimeSeries Demo.host Demo.sample_result
            (Demo.with_period "today" Demo.blank_query)) Demo.empty_state)
  = inr {| frame_refId := "A"; field_name := "Power (Watts)"; field_unit := "watt";
           rows := [(1751788800000, JNum 500); (1751792400000, JNum 700)] |}.
Proof. vm_compute. reflexivity. Qed.

(** *** C6 *)

(** C6: whatever the order of the entries of the selected data, the emitted
    rows are in ascending order of time: each row's time is at most the time
    of the row after it. *)
Theorem C6_output_sorted_by_time :
  forall (host : Host) (allData : jsval) (query : MyQuery) (s : State),
    exists n frame,
      exec host (formatAsTimeSeries host allData query) s = (advance n s, inr frame)
      /\ Sorted Z.le (map fst (rows frame)).
Proof.
  intros host allData query s.
  destruct (formatAsTimeSeries_rows host allData query s) as (n & frame & Hrun & Hrows).
  exists n, frame. split; [apply exec_formatAsTimeSeries; exact Hrun|].
  rewrite Hrows, map_map. simpl.
  apply (Array_sort_keys_Sorted (fun e => timeOf host (fst e)) (byTime host)).
  intros a b. apply byTime_key.
Qed.

(** *** C7 *)

(** C7, what the code does: a key that fails to parse is normalized to 0 by
    [parseTimestamp], so the [isNaN] test of the assembler never fires and,
    for the period [all], the point is emitted with time 0 instead of being
    dropped. *)
Theorem C7_unparseable_timestamp_emitted_at_zero :
  forall (host : Host) (allData : jsval) (query : MyQuery) (s : State)
         (timestamp : string) (value : jsval),
    Date_parse host timestamp = None ->
    In (timestamp, value) (Object_entries (selectData allData (or_str (metric query) "watts"))) ->
    or_str (forecastPeriod query) "all" = "all" ->
    parseTimestamp host timestamp = Some 0
    /\ exists n frame,
         exec host (formatAsTimeSeries host allData query) s = (advance n s, inr frame)
         /\ In (0, value) (rows frame).
Proof.
  intros host allData query s timestamp value Hparse Hin Hall.
  assert (Ht : timeOf host timestamp = 0) by (unfold timeOf; rewrite Hparse; reflexivity).
  split; [rewrite parseTimestamp_timeOf, Ht; reflexivity|].
  destruct (formatAsTimeSeries_rows host allData query s) as (n & frame & Hrun & Hrows).
  exists n, frame. split; [apply exec_formatAsTimeSeries; exact Hrun|].
  rewrite Hrows, Hall. apply in_map_iff. exists (timestamp, value).
  split; [unfold toRow; simpl; rewrite Ht; reflexivity|].
  apply list_elem_of_In. rewrite (Array_sort_Permutation (byTime host)).
  apply list_elem_of_filter. split; [exact I|]. apply list_elem_of_In. exact Hin.
Qed.

(** C7 at the key [soon]: the point is emitted at the epoch. *)
Lemma C7_unparseable_timestamp_emitted_at_zero_witness :
  parseTimestamp Demo.host "soon" = Some 0
  /\ exists n frame,
       exec Demo.host (formatAsTimeSeries Demo.host Demo.odd_result Demo.blank_query)
         Demo.empty_state
       = (advance n Demo.empty_state, inr frame)
       /\ In (0, JNum 5) (rows frame).
Proof.
  apply (C7_unparseable_timestamp_emitted_at_zero Demo.host Demo.odd_result Demo.blank_query
           Demo.empty_state "soon" (JNum 5)).
  - reflexivity.
  - simpl. right. left. reflexivity.
  - reflexivity.
Defined.

Example odd_result_rows :
  snd (exec Demo.host (formatAsTimeSeries Demo.host Demo.odd_result Demo.blank_query)
         Demo.empty_state)
  = inr {| frame_refId := "A"; field_name := "Power (Watts)"; field_unit := "watt";
           rows := [(0, JNum 5); (1751788800000, JNum 500)] |}.
Proof. vm_compute. reflexivity. Qed.

(** *** C8 *)

(** C8, what the code does: for inline location parameters every missing
    field takes its fallback (51.13, 10.42, 30, 180, 5.0), and so does every
    field supplied as zero: [0 || fallback] is the fallback. *)
Theorem C8_zero_is_replaced_by_fallback :
  forall (cfg : InstanceSettings) (query : MyQuery),
    truthy_ostr (locationId query) && negb (default false (useCustomLocation query)) = false ->
    resolveLocation cfg query
    = inr {| res_latitude := or_num (latitude query) 51.13;
             res_longitude := or_num (longitude query) 10.42;
             res_declination := or_num (declination query) 30;
             res_azimuth := or_num (azimuth query) 180;
             res_kwp := or_num (kwp query) 5.0 |}
    /\ (forall fallback, or_num None fallback = fallback)
    /\ (forall fallback, or_num (Some 0%float) fallback = fallback).
Proof.
  intros cfg query Hcustom. unfold resolveLocation. rewrite Hcustom.
  repeat split; reflexivity.
Qed.

(** C8 at the horizontal panel: the tilt 0 of the query is resolved to 30. *)
Lemma C8_zero_is_replaced_by_fallback_witness :
  resolveLocation Demo.primary_cfg Demo.flat_panel_query
  = inr {| res_latitude := 48.1; res_longitude := 11.5; res_declination := 30;
           res_azimuth := 180; res_kwp := 5.0 |}.
Proof.
  destruct (C8_zero_is_replaced_by_fallback Demo.primary_cfg Demo.flat_panel_query eq_refl)
    as [H _].
  exact H.
Defined.

(** *** C9 *)

Section ObjectStore.

Context {A : Type}.
Implicit Types (o : list (string * A)).

Lemma obj_get_set_eq k (v : A) o : obj_get k (obj_set k v o) = Some v.
Proof.
  induction o as [|[k' v'] o IH]; simpl.
  - rewrite String.eqb_refl. reflexivity.
  - destruct (String.eqb k k') eqn:E; simpl; rewrite E; [reflexivity|exact IH].
Qed.

Lemma obj_get_set_ne k k' (v : A) o :
  k <> k' -> obj_get k' (obj_set k v o) = obj_get k' o.
Proof.
  intros Hne. induction o as [|[k0 v0] o IH]; simpl.
  - destruct (String.eqb k' k) eqn:E; [|reflexivity].
    apply String.eqb_eq in E. congruence.
  - destruct (String.eqb k k0) eqn:E; simpl.
    + apply String.eqb_eq in E. subst k0.
      destruct (String.eqb k' k) eqn:E'; [|reflexivity].
      apply String.eqb_eq in E'. congruence.
    + rewrite IH. reflexivity.
Qed.

Lemma obj_get_elem k (v : A) o : obj_get k o = Some v -> In (k, v) o.
Proof.
  induction o as [|[k' v'] o IH]; simpl; [discriminate|].
  destruct (String.eqb_spec k k') as [->|Hne].
  - intros [= ->]. left. reflexivity.
  - intros H. right. apply IH. exact H.
Qed.

Lemma obj_get_absent k o : obj_get k o = None <-> ~ In k (map fst o).
Proof.
  induction o as [|[k' v'] o IH]; simpl; [tauto|].
  destruct (String.eqb_spec k k') as [->|Hne].
  - split; [discriminate|]. intros H. exfalso. apply H. left. reflexivity.
  - rewrite IH. split; [intros H [Heq|Hin]; [congruence|tauto]|tauto].
Qed.

Lemma obj_get_of_elem k (v : A) o :
  NoDup (map fst o) -> In (k, v) o -> obj_get k o = Some v.
Proof.
  induction o as [|[k' v'] o IH]; simpl; [tauto|].
  intros Hnd [Heq|Hin].
  - injection Heq as -> ->. rewrite String.eqb_refl. reflexivity.
  - apply NoDup_cons in Hnd as [Hfresh Hnd].
    destruct (String.eqb_spec k k') as [->|Hne]; [|apply IH; assumption].
    exfalso. apply Hfresh. apply list_elem_of_In. apply (in_map fst) in Hin. exact Hin.
Qed.

(** Lookup does not depend on the order of an object's properties. *)
Lemma obj_get_perm k o o' :
  NoDup (map fst o) -> o ≡ₚ o' -> obj_get k o = obj_get k o'.
Proof.
  intros Hnd Hperm.
  assert (Hnd' : NoDup (map fst o')) by (rewrite <- Hperm; exact Hnd).
  destruct (obj_get k o) as [v|] eqn:Hget.
  - symmetry. apply obj_get_of_elem; [exact Hnd'|].
    apply list_elem_of_In. rewrite <- Hperm. apply list_elem_of_In.
    apply obj_get_elem. exact Hget.
  - symmetry. apply obj_get_absent. apply obj_get_absent in Hget.
    intros Hin. apply Hget. apply list_elem_of_In. rewrite Hperm.
    apply list_elem_of_In. exact Hin.
Qed.

Lemma obj_set_keys k (v : A) o x :
  In x (map fst (obj_set k v o)) -> x = k \/ In x (map fst o).
Proof.
  induction o as [|[k' v'] o IH]; simpl.
  - intros [<-|[]]. left. reflexivity.
  - destruct (String.eqb k k'); simpl; [tauto|].
    intros [<-|Hin]; [right; left; reflexivity|].
    destruct (IH Hin); tauto.
Qed.

Lemma obj_set_NoDup k (v : A) o :
  NoDup (map fst o) -> NoDup (map fst (obj_set k v o)).
Proof.
  induction o as [|[k' v'] o IH]; simpl; intros Hnd.
  - apply NoDup_singleton.
  - destruct (String.eqb_spec k k') as [->|Hne]; simpl; [exact Hnd|].
    apply NoDup_cons in Hnd as [Hfresh Hnd]. apply NoDup_cons. split; [|apply IH; exact Hnd].
    intros Hin. apply list_elem_of_In in Hin. apply obj_set_keys in Hin as [->|Hin];
      [congruence|]. apply Hfresh. apply list_elem_of_In. exact Hin.
Qed.

Lemma obj_set_length k (v : A) o : (length (obj_set k v o) <= S (length o))%nat.
Proof.
  induction o as [|[k' v'] o IH]; simpl; [lia|].
  destruct (String.eqb k k'); simpl; lia.
Qed.

Lemma insert_index_Permutation {B} i (e : B) (l : list (Z * B)) :
  insert_index i e l ≡ₚ (i, e) :: l.
Proof.
  induction l as [|[j e'] l IH]; simpl; [reflexivity|].
  destruct (i <? j); [reflexivity|]. rewrite IH. apply Permutation_swap.
Qed.

(** Enumeration reorders the properties and neither adds nor drops one. *)
Lemma own_entries_Permutation o : own_entries o ≡ₚ o.
Proof.
  unfold own_entries.
  induction o as [|e o IH]; [reflexivity|].
  unfold is_array_index in *. cbn [indexed_entries foldr List.filter].
  fold (indexed_entries o).
  destruct (array_index (fst e)) as [i|]; cbn [negb].
  - rewrite insert_index_Permutation. cbn [map snd app]. rewrite IH. reflexivity.
  - rewrite <- Permutation_middle. rewrite IH. reflexivity.
Qed.

Lemma existsb_take (f : A -> bool) n (l : list A) :
  existsb f (take n l) = true -> existsb f l = true.
Proof.
  revert n. induction l as [|x l IH]; intros [|n]; simpl; try discriminate.
  destruct (f x); [reflexivity|]. apply IH.
Qed.

End ObjectStore.

(** [parseInt] reads back what [toString] wrote. *)
Section ParseInt.

Lemma leading_digits_acc d acc :
  leading_digits (Some (Z.pos acc)) (NilEmpty.string_of_uint d)
  = Some (Z.pos (Pos.of_uint_acc d acc)).
Proof.
  revert acc. induction d as [|d IH|d IH|d IH|d IH|d IH|d IH|d IH|d IH|d IH|d IH];
    intros acc; [reflexivity|..];
    cbn [NilEmpty.string_of_uint leading_digits Pos.of_uint_acc];
    match goal with
    | |- context [digit_of ?c] =>
        let v := eval vm_compute in (digit_of c) in change (digit_of c) with v
    end;
    cbn [default from_option id]; rewrite <- IH; f_equal; f_equal; lia.
Qed.

Lemma leading_digits_uint d :
  leading_digits (Some 0) (NilEmpty.string_of_uint d) = Some (Z.of_N (Pos.of_uint d)).
Proof.
  induction d as [|d IH|d IH|d IH|d IH|d IH|d IH|d IH|d IH|d IH|d IH];
    [reflexivity|exact IH|..];
    cbn [NilEmpty.string_of_uint leading_digits Pos.of_uint];
    match goal with
    | |- context [digit_of ?c] =>
        let v := eval vm_compute in (digit_of c) in change (digit_of c) with v
    end;
    cbn [default from_option id]; apply leading_digits_acc.
Qed.

Lemma parseInt_uint d :
  d <> Decimal.Nil ->
  parseInt (NilEmpty.string_of_uint d) = Some (Z.of_N (Pos.of_uint d))
  /\ leading_digits None (NilEmpty.string_of_uint d) = Some (Z.of_N (Pos.of_uint d)).
Proof.
  intros Hd. rewrite <- leading_digits_uint.
  destruct d; [congruence|..]; split; reflexivity.
Qed.

Lemma parseInt_Z_toString z : parseInt (Z_toString z) = Some z.
Proof.
  unfold Z_toString. destruct z as [|p|p]; [reflexivity|..];
    cbn [Z.to_int NilZero.string_of_int];
    pose proof (Unsigned.to_uint_nonnil p) as Hn;
    replace (NilZero.string_of_uint (Pos.to_uint p))
      with (NilEmpty.string_of_uint (Pos.to_uint p))
      by (destruct (Pos.to_uint p); [congruence|reflexivity..]).
  - rewrite (proj1 (parseInt_uint _ Hn)), Unsigned.of_to. reflexivity.
  - cbn [parseInt]. rewrite (proj2 (parseInt_uint _ Hn)), Unsigned.of_to. reflexivity.
Qed.

End ParseInt.

Section Solcast.

Context (host : Host).

(** After the [forEach], a key holds the watts of the last forecast that has
    it, and a key no forecast has is absent. *)
Lemma solcast_fold_last fs k :
  obj_get k (fold_left (solcast_add host) fs [])
  = (fun f => JNum (solcast_watts f)) <$> last_forecast_at host fs k.
Proof.
  unfold last_forecast_at.
  induction fs as [|g fs IH] using rev_ind; [reflexivity|].
  rewrite fold_left_app, rev_app_distr. simpl. unfold solcast_add at 1.
  fold (solcast_key host g).
  destruct (String.eqb_spec (solcast_key host g) k) as [<-|Hne].
  - rewrite obj_get_set_eq. reflexivity.
  - rewrite obj_get_set_ne by exact Hne. exact IH.
Qed.

Lemma solcast_fold_NoDup fs : NoDup (map fst (fold_left (solcast_add host) fs [])).
Proof.
  induction fs as [|g fs IH] using rev_ind; [apply NoDup_nil_2|].
  rewrite fold_left_app. simpl. apply obj_set_NoDup. exact IH.
Qed.

Lemma solcast_fold_length fs :
  (length (fold_left (solcast_add host) fs []) <= length fs)%nat.
Proof.
  induction fs as [|g fs IH] using rev_ind; [reflexivity|].
  rewrite fold_left_app, length_app. simpl.
  pose proof (obj_set_length (solcast_key host g) (JNum (solcast_watts g))
                (fold_left (solcast_add host) fs [])) as Hlen.
  unfold solcast_add at 1. fold (solcast_key host g). lia.
Qed.

(** Every key of the result is the key of a forecast. *)
Lemma solcast_fold_keys fs e :
  In e (fold_left (solcast_add host) fs []) ->
  exists f, In f fs /\ fst e = solcast_key host f.
Proof.
  intros Hin. destruct e as [k v].
  pose proof (obj_get_of_elem k v _ (solcast_fold_NoDup fs) Hin) as Hget.
  rewrite solcast_fold_last in Hget. unfold last_forecast_at in Hget.
  destruct (List.find _ (rev fs)) as [f|] eqn:Hfind; [|discriminate].
  apply find_some in Hfind as [Hf Hk]. exists f. split.
  - apply in_rev. exact Hf.
  - apply String.eqb_eq in Hk. simpl. congruence.
Qed.

(** The key of a forecast is a key of the result. *)
Lemma solcast_fold_has fs f :
  In f fs -> exists v, In (solcast_key host f, v) (fold_left (solcast_add host) fs []).
Proof.
  intros Hin.
  destruct (obj_get (solcast_key host f) (fold_left (solcast_add host) fs [])) as [v|] eqn:Hget.
  - exists v. apply obj_get_elem. exact Hget.
  - rewrite solcast_fold_last in Hget. unfold last_forecast_at in Hget.
    destruct (List.find _ (rev fs)) as [g|] eqn:Hfind; [discriminate|].
    apply in_rev in Hin. pose proof (find_none _ _ Hfind f Hin) as Hk.
    simpl in Hk. rewrite String.eqb_refl in Hk. discriminate.
Qed.

(** The canonical timestamp is [period_end] minus 30 minutes, in whole
    seconds. *)
Lemma solcast_timestamp_spec f p :
  Date_parse host (period_end f) = Some p ->
  solcast_timestamp host f = Some ((p - minutes 30) / 1000).
Proof.
  intros Hp. unfold solcast_timestamp. rewrite Hp. simpl. f_equal.
  unfold minutes. replace (p - 30 * 60 * 1000) with (p + (-1800) * 1000) by lia.
  rewrite Z.div_add by lia. lia.
Qed.

(** The debug log formats the key of a forecast that [formats]. *)
Lemma formats_sample f v :
  formats host f -> sample_is_invalid (solcast_key host f, v) = false.
Proof.
  intros (p & Hp & Hrange). unfold sample_is_invalid, solcast_key, solcast_timestamp.
  rewrite Hp. simpl. rewrite parseInt_Z_toString. simpl.
  destruct (Z.leb_spec (Z.abs ((p / 1000 - 1800) * 1000)) 8640000000000000); [reflexivity|lia].
Qed.

(** It cannot format the key of a forecast whose [period_end] does not
    parse. *)
Lemma unparseable_sample f v :
  Date_parse host (period_end f) = None ->
  sample_is_invalid (solcast_key host f, v) = true.
Proof.
  intros Hp. unfold sample_is_invalid, solcast_key, solcast_timestamp. rewrite Hp. reflexivity.
Qed.

End Solcast.

(** [Math.round] picks the nearest integer, the upper one on a tie: for a
    value [num / d], the result [r] has [r - 1/2 <= num / d < r + 1/2]. *)
Lemma round_SF_nearest (s : bool) (m : positive) (e : Z) :
  e < 0 ->
  let d := 2 ^ (- e) in
  let num := if s then - Z.pos m else Z.pos m in
  let r := round_SF s m e in
  (2 * r - 1) * d <= 2 * num < (2 * r + 1) * d.
Proof.
  intros He d num r. subst r. unfold round_SF. fold d. fold num.
  assert (Hd : 0 < d) by (subst d; apply Z.pow_pos_nonneg; lia).
  pose proof (Z.div_mod (2 * num + d) (2 * d) ltac:(lia)) as Hdm.
  pose proof (Z.mod_pos_bound (2 * num + d) (2 * d) ltac:(lia)) as Hb.
  nia.
Qed.

(** ** Integers as floats *)

Section FloatIntegers.

Lemma digits2_pos_bounds p :
  2 ^ (Z.pos (digits2_pos p) - 1) <= Z.pos p < 2 ^ Z.pos (digits2_pos p).
Proof.
  induction p as [p IH|p IH|]; simpl digits2_pos.
  - rewrite Pos2Z.inj_succ.
    replace (Z.succ (Z.pos (digits2_pos p)) - 1) with (Z.succ (Z.pos (digits2_pos p) - 1)) by lia.
    rewrite !Z.pow_succ_r by lia. lia.
  - rewrite Pos2Z.inj_succ.
    replace (Z.succ (Z.pos (digits2_pos p)) - 1) with (Z.succ (Z.pos (digits2_pos p) - 1)) by lia.
    rewrite !Z.pow_succ_r by lia. lia.
  - simpl. lia.
Qed.

Lemma digits2_pos_le p k : Z.pos p < 2 ^ k -> Z.pos (digits2_pos p) <= k.
Proof.
  intros H. destruct (digits2_pos_bounds p) as [Hlo _].
  destruct (Z.le_gt_cases (Z.pos (digits2_pos p)) k) as [|Hgt]; [assumption|].
  assert (2 ^ k <= 2 ^ (Z.pos (digits2_pos p) - 1)) by (apply Z.pow_le_mono_r; lia).
  lia.
Qed.

Lemma digits2_pos_iter_xO p d :
  digits2_pos (Pos.iter xO p d) = (digits2_pos p + d)%positive.
Proof.
  induction d as [|d IH] using Pos.peano_ind.
  - simpl. lia.
  - rewrite Pos.iter_succ. simpl. rewrite IH. lia.
Qed.

(** Normalizing a positive integer below 2^53 loses nothing: the mantissa
    is the integer shifted left and the exponent undoes the shift. *)
Lemma binary_normalize_exact p :
  Z.pos p < 2 ^ 53 ->
  exists m e,
    binary_normalize prec emax (Z.pos p) 0 false = S754_finite false m e
    /\ e <= 0 /\ Z.pos m = Z.pos p * 2 ^ (- e).
Proof.
  intros Hp. pose proof (digits2_pos_le p 53 Hp) as Hd.
  unfold binary_normalize, binary_round.
  assert (Hfexp : fexp prec emax (Z.pos (digits2_pos p) + 0) = Z.pos (digits2_pos p) - 53).
  { unfold fexp, SpecFloat.emin, prec, emax. lia. }
  rewrite Hfexp. unfold shl_align.
  assert (Haux : forall mz ez, Z.pos (digits2_pos mz) = 53 -> -52 <= ez <= 0 ->
            binary_round_aux prec emax false (Z.pos mz) ez loc_Exact
            = S754_finite false mz ez).
  { intros mz ez Hmz Hez. unfold binary_round_aux, shr_fexp. simpl Zdigits2. rewrite Hmz.
    assert (Hf : fexp prec emax (53 + ez) - ez = 0)
      by (unfold fexp, SpecFloat.emin, prec, emax; lia).
    match goal with
    | |- context [shr _ _ ?n] => change n with (fexp prec emax (53 + ez) - ez)
    end.
    rewrite Hf. simpl.
    match goal with
    | |- context [shr _ _ ?n] =>
        change n with (fexp prec emax (Z.pos (digits2_pos mz) + ez) - ez)
    end.
    rewrite Hmz, Hf. simpl.
    match goal with
    | |- (if ?c then _ else _) = _ => replace c with true; [reflexivity|]
    end.
    symmetry. apply Z.leb_le. unfold emax, prec. lia. }
  destruct (Z.pos (digits2_pos p) - 53 - 0) as [|d|d] eqn:Hdiff.
  - exists p, 0. split; [|split; [lia|simpl; lia]].
    apply Haux; lia.
  - lia.
  - exists (Pos.iter xO p d), (Z.pos (digits2_pos p) - 53). split; [|split; [lia|]].
    + apply Haux; [|lia]. rewrite digits2_pos_iter_xO. lia.
    + change (Pos.iter xO p d) with (shift_pos d p). rewrite shift_pos_correct.
      rewrite Z.pow_pos_fold.
      replace (- (Z.pos (digits2_pos p) - 53)) with (Z.pos d) by lia. lia.
Qed.

(** [float_of_Z] is exact on the integers a float holds exactly. *)
Lemma integer_of_float_of_Z z :
  Z.abs z < 2 ^ 53 -> integer_of_float (float_of_Z z) = Some z.
Proof.
  intros Hz. unfold float_of_Z, integer_of_float.
  assert (H63 : 2 ^ 53 < wB) by (vm_compute; reflexivity).
  destruct (Z.ltb_spec z 0) as [Hneg|Hpos].
  - rewrite FloatAxioms.opp_spec, of_uint63_spec, of_Z_spec.
    rewrite Z.mod_small by lia.
    destruct z as [|p|p]; try lia. change (- Z.neg p) with (Z.pos p).
    destruct (binary_normalize_exact p ltac:(lia)) as (m & e & -> & He & Hm).
    simpl SFopp. unfold signed.
    destruct (Z.leb_spec 0 e).
    + assert (e = 0) by lia. subst e. simpl in *. f_equal. lia.
    + assert (H2 : 0 < 2 ^ (- e)) by (apply Z.pow_pos_nonneg; lia).
      replace (- Z.pos m) with ((- Z.pos p) * 2 ^ (- e)) by lia.
      rewrite Z.mod_mul by lia. rewrite Z.eqb_refl, Z.div_mul by lia. reflexivity.
  - rewrite of_uint63_spec, of_Z_spec. rewrite Z.mod_small by lia.
    destruct z as [|p|p]; try lia; [reflexivity|].
    destruct (binary_normalize_exact p ltac:(lia)) as (m & e & -> & He & Hm).
    unfold signed.
    destruct (Z.leb_spec 0 e).
    + assert (e = 0) by lia. subst e. simpl in *. f_equal. lia.
    + assert (H2 : 0 < 2 ^ (- e)) by (apply Z.pow_pos_nonneg; lia).
      rewrite Hm. rewrite Z.mod_mul by lia. rewrite Z.eqb_refl, Z.div_mul by lia. reflexivity.
Qed.

(** The mantissa of a float has at most 53 bits. *)
Lemma mantissa_bound x s m e :
  Prim2SF x = S754_finite s m e -> Z.pos m < 2 ^ 53.
Proof.
  intros Hx. pose proof (Prim2SF_valid x) as Hv. rewrite Hx in Hv.
  unfold SpecFloat.valid_binary, bounded, canonical_mantissa in Hv.
  apply andb_true_iff in Hv as [Hc _]. apply Z.eqb_eq in Hc.
  unfold fexp, SpecFloat.emin, prec, emax in Hc.
  destruct (digits2_pos_bounds m) as [_ Hhi].
  assert (Z.pos (digits2_pos m) <= 53) by lia.
  assert (2 ^ Z.pos (digits2_pos m) <= 2 ^ 53) by (apply Z.pow_le_mono_r; lia).
  lia.
Qed.

(** What [Math.round] returns on a finite float is an integer: the float
    itself when it has no fractional bits, otherwise the integer nearest to
    it, the upper one on a tie. *)
Lemma Math_round_integer x s m e :
  Prim2SF x = S754_finite s m e ->
  exists r,
    integer_of_float (Math_round x) = Some r
    /\ if 0 <=? e then r = signed s m * 2 ^ e
       else (2 * r - 1) * 2 ^ (- e) <= 2 * signed s m < (2 * r + 1) * 2 ^ (- e).
Proof.
  intros Hx. unfold Math_round. rewrite Hx.
  destruct (Z.leb_spec 0 e) as [Hpos|Hneg].
  - exists (signed s m * 2 ^ e). split; [|reflexivity].
    unfold integer_of_float. rewrite Hx.
    destruct (Z.leb_spec 0 e); [reflexivity|lia].
  - exists (round_SF s m e). pose proof (round_SF_nearest s m e Hneg) as Hr. simpl in Hr.
    split; [|exact Hr].
    destruct ((round_SF s m e =? 0) && s) eqn:Hzero.
    + apply andb_true_iff in Hzero as [Hz _]. apply Z.eqb_eq in Hz. rewrite Hz. reflexivity.
    + apply integer_of_float_of_Z.
      pose proof (mantissa_bound x s m e Hx) as Hm.
      assert (Hd : 2 <= 2 ^ (- e)).
      { change 2 with (2 ^ 1) at 1. apply Z.pow_le_mono_r; lia. }
      change (2 ^ 53) with 9007199254740992 in *.
      destruct s; nia.
Qed.

End FloatIntegers.

Section SolcastRun.

Context (host : Host) (cfg : InstanceSettings).

(** A run of the alt-provider adapter with a credential, a site id and a
    backend that answers: the result, unless the debug log throws. *)
Lemma exec_fetchSolcastData lat lon site body s :
  secureJsonFields_apiKey cfg = Some true ->
  truthy_str site = true ->
  backendGet host (length (requests s))
    ("/api/datasources/proxy/uid/" +:+ uid cfg +:+ "/solcast/rooftop_sites/" +:+ site
     +:+ "/forecasts") = inr body ->
  let watts := own_entries (fold_left (solcast_add host) (default [] (forecasts body)) []) in
  snd (exec host (fetchSolcastData host cfg lat lon (Some site)) s)
  = if existsb sample_is_invalid (take 3 watts)
    then inl (ErrorObj (toISOString_RangeError host))
    else inr (JObj [("watts", JObj watts)]).
Proof.
  intros Hkey Hsite Hresp watts. unfold fetchSolcastData. rewrite Hkey. simpl. rewrite Hsite.
  simpl. unfold exec, bind, backend_get. simpl. rewrite Hresp. fold watts.
  destruct (existsb sample_is_invalid (take 3 watts)); reflexivity.
Qed.

End SolcastRun.

(** C9: the alt-provider adapter stores, for a forecast entry, the watts
    [Math.round(pv_estimate * 1000)] under the key that is [period_end] minus
    30 minutes in epoch seconds; when several entries share a key the last
    one wins, and the result has no other key.  This is what it returns when
    every [period_end] parses to a date its debug log can format; with an
    unparseable [period_end] among up to three entries the log throws a
    RangeError instead.  [Math.round] yields the integer nearest to its
    argument, the upper one on a tie.  The entry with [period_end]
    2025-07-06T11:30:00Z and [pv_estimate] 0.5 yields the point 500 at
    2025-07-06T11:00:00Z; and of four entries, the first without date, the
    three dated ones are converted and come first in the result, in order of
    their keys, so that the log formats those and nothing is thrown. *)
Theorem C9_alt_provider_entry_conversion :
  (forall (host : Host) (cfg : InstanceSettings) (lat lon : float) (site : string)
          (body : Response) (fs : list SolcastForecast) (s : State),
      secureJsonFields_apiKey cfg = Some true ->
      truthy_str site = true ->
      backendGet host (length (requests s))
        ("/api/datasources/proxy/uid/" +:+ uid cfg +:+ "/solcast/rooftop_sites/" +:+ site
         +:+ "/forecasts") = inr body ->
      forecasts body = Some fs ->
      (forall f, In f fs -> formats host f) ->
      exists watts,
        snd (exec host (fetchSolcastData host cfg lat lon (Some site)) s)
        = inr (JObj [("watts", JObj watts)])
        /\ (forall k,
              obj_get k watts
              = (fun f => JNum (Math_round (pv_estimate f * 1000)%float))
                  <$> last_forecast_at host fs k)
        /\ (forall f p,
              In f fs -> Date_parse host (period_end f) = Some p ->
              solcast_key host f = Z_toString ((p - minutes 30) / 1000)))
  /\ (forall (host : Host) (cfg : InstanceSettings) (lat lon : float) (site : string)
             (body : Response) (fs : list SolcastForecast) (s : State) (f : SolcastForecast),
        secureJsonFields_apiKey cfg = Some true ->
        truthy_str site = true ->
        backendGet host (length (requests s))
          ("/api/datasources/proxy/uid/" +:+ uid cfg +:+ "/solcast/rooftop_sites/" +:+ site
           +:+ "/forecasts") = inr body ->
        forecasts body = Some fs ->
        (length fs <= 3)%nat ->
        In f fs ->
        Date_parse host (period_end f) = None ->
        snd (exec host (fetchSolcastData host cfg lat lon (Some site)) s)
        = inl (ErrorObj (toISOString_RangeError host)))
  /\ (forall (x : float) (sign : bool) (m : positive) (e : Z),
        Prim2SF x = S754_finite sign m e ->
        exists r,
          integer_of_float (Math_round x) = Some r
          /\ if 0 <=? e then r = signed sign m * 2 ^ e
             else (2 * r - 1) * 2 ^ (- e) <= 2 * signed sign m < (2 * r + 1) * 2 ^ (- e))
  /\ snd (exec Demo.host
            (fetchSolcastData Demo.host Demo.solcast_cfg 51.13%float 10.42%float (Some "site-1"))
            Demo.empty_state)
     = inr (JObj [("watts", JObj [("1751799600", JNum 500%float)])])
  /\ Date_parse Demo.host "2025-07-06T11:00:00Z" = Some (1751799600 * 1000)
  /\ snd (exec (Demo.host_at Demo.T0 (inr Demo.mixed_body))
            (fetchSolcastData (Demo.host_at Demo.T0 (inr Demo.mixed_body)) Demo.solcast_cfg
               51.13%float 10.42%float (Some "site-1"))
            Demo.empty_state)
     = inr (JObj [("watts",
                   JObj [("1751799600", JNum 500%float); ("1751801400", JNum 700%float);
                         ("1751803200", JNum 900%float); ("NaN", JNum 600%float)])]).
Proof.
  split; [|split; [|split; [|split; [|split]]]].
  - intros host cfg lat lon site body fs s Hkey Hsite Hresp Hfs Hok.
    pose proof (exec_fetchSolcastData host cfg lat lon site body s Hkey Hsite Hresp) as Hrun.
    rewrite Hfs in Hrun. simpl in Hrun.
    set (watts := own_entries (fold_left (solcast_add host) fs [])) in *.
    assert (Hsample : existsb sample_is_invalid (take 3 watts) = false).
    { destruct (existsb sample_is_invalid (take 3 watts)) eqn:Hex; [|reflexivity].
      apply existsb_take in Hex. apply existsb_exists in Hex as (e & Hin & Hbad).
      apply list_elem_of_In in Hin. unfold watts in Hin.
      rewrite own_entries_Permutation in Hin. apply list_elem_of_In in Hin.
      destruct (solcast_fold_keys host fs e Hin) as (f & Hf & Hk).
      destruct e as [k v]. simpl in Hk. subst k.
      rewrite (formats_sample host f v (Hok f Hf)) in Hbad. discriminate. }
    rewrite Hsample in Hrun.
    exists watts. split; [exact Hrun|split].
    + intros k. unfold watts.
      rewrite <- (obj_get_perm k _ _ (solcast_fold_NoDup host fs)
                    (symmetry (own_entries_Permutation _))).
      apply solcast_fold_last.
    + intros f p _ Hp. unfold solcast_key.
      rewrite (solcast_timestamp_spec host f p Hp). reflexivity.
  - intros host cfg lat lon site body fs s f Hkey Hsite Hresp Hfs Hlen Hin Hp.
    pose proof (exec_fetchSolcastData host cfg lat lon site body s Hkey Hsite Hresp) as Hrun.
    rewrite Hfs in Hrun. simpl in Hrun.
    set (watts := own_entries (fold_left (solcast_add host) fs [])) in *.
    assert (Hsample : existsb sample_is_invalid (take 3 watts) = true).
    { rewrite take_ge.
      - destruct (solcast_fold_has host fs f Hin) as (v & Hv).
        apply existsb_exists. exists (solcast_key host f, v). split.
        + apply list_elem_of_In. unfold watts. rewrite own_entries_Permutation.
          apply list_elem_of_In. exact Hv.
        + apply unparseable_sample. exact Hp.
      - unfold watts. rewrite own_entries_Permutation.
        pose proof (solcast_fold_length host fs). lia. }
    rewrite Hsample in Hrun. exact Hrun.
  - exact Math_round_integer.
  - vm_compute. reflexivity.
  - vm_compute. reflexivity.
  - vm_compute. reflexivity.
Qed.

(** C9 at the scenario's entry. *)
Lemma C9_alt_provider_entry_conversion_witness :
  exists watts,
    snd (exec Demo.host
           (fetchSolcastData Demo.host Demo.solcast_cfg 51.13%float 10.42%float (Some "site-1"))
           Demo.empty_state)
    = inr (JObj [("watts", JObj watts)])
    /\ (forall k,
          obj_get k watts
          = (fun f => JNum (Math_round (pv_estimate f * 1000)%float))
              <$> last_forecast_at Demo.host
                    [ {| period_end := "2025-07-06T11:30:00Z"; pv_estimate := 0.5%float |} ] k)
    /\ (forall f p,
          In f [ {| period_end := "2025-07-06T11:30:00Z"; pv_estimate := 0.5%float |} ] ->
          Date_parse Demo.host (period_end f) = Some p ->
          solcast_key Demo.host f = Z_toString ((p - minutes 30) / 1000)).
Proof.
  apply (proj1 C9_alt_provider_entry_conversion Demo.host Demo.solcast_cfg 51.13%float 10.42%float
           "site-1" Demo.solcast_body
           [ {| period_end := "2025-07-06T11:30:00Z"; pv_estimate := 0.5%float |} ]
           Demo.empty_state).
  - reflexivity.
  - reflexivity.
  - reflexivity.
  - reflexivity.
  - intros f [<-|[]]. exists 1751801400000. split; [reflexivity|].
    vm_compute. discriminate.
Defined.

(** An entry whose [period_end] is no date: the key is [NaN], and the
    adapter throws where its log formats the key. *)
Example scenario_garbled_period_end :
  snd (exec (Demo.host_at Demo.T0 (inr Demo.garbled_body))
         (fetchSolcastData (Demo.host_at Demo.T0 (inr Demo.garbled_body)) Demo.solcast_cfg
            51.13%float 10.42%float (Some "site-1"))
         Demo.empty_state)
  = inl (ErrorObj "Invalid time value").
Proof. vm_compute. reflexivity. Qed.

(** Enumeration puts the array indices first: of the keys [NaN], an epoch
    second and a second before the epoch, created in this order. *)
Example scenario_own_entries :
  map fst (own_entries [("NaN", 1); ("1751799600", 2); ("-1800", 3); ("86400", 4)])
  = ["86400"; "1751799600"; "NaN"; "-1800"].
Proof. vm_compute. reflexivity. Qed.

(** *** C10 *)

(** C10, what the code does: when the canonical result has no member for
    the metric, own or inherited, the assembler takes the canonical result
    itself as the selected data ([allData[metric] || allData]) and raises no
    error.  The rows are then its top-level entries that pass the time filter;
    there are none only when the canonical result is empty.  For the period
    [all] every top-level entry whose key is no timestamp, as a metric name is
    none, is emitted as a point at time 0 whose value is that metric's whole
    map: the [isNaN] test that should skip it never fires.  A metric that
    names a member of [Object.prototype] is not absent: the inherited member
    is selected, and no point is emitted. *)
Theorem C10_absent_metric_selects_whole_result :
  (forall (host : Host) (allData : jsval) (query : MyQuery) (s : State),
      index allData (or_str (metric query) "watts") = None ->
      exists n frame,
        exec host (formatAsTimeSeries host allData query) s = (advance n s, inr frame)
        /\ rows frame =
           map (toRow host)
             (Array_sort (byTime host)
                (filter (fun e => Is_true (code_filter host (clock host (ticks s))
                                             (or_str (forecastPeriod query) "all") (fst e)))
                   (Object_entries allData)))
        /\ (Object_entries allData = [] -> rows frame = [])
        /\ (or_str (forecastPeriod query) "all" = "all" ->
            forall key value,
              In (key, value) (Object_entries allData) ->
              Date_parse host key = None ->
              In (0, value) (rows frame)))
  /\ (forall (host : Host) (own : list (string * jsval)) (query : MyQuery) (s : State),
        obj_get (or_str (metric query) "watts") own = None ->
        In (or_str (metric query) "watts") Object_prototype_names ->
        exists n frame,
          exec host (formatAsTimeSeries host (JObj own) query) s = (advance n s, inr frame)
          /\ rows frame = []).
Proof.
  split.
  - intros host allData query s Habsent.
    destruct (formatAsTimeSeries_rows host allData query s) as (n & frame & Hrun & Hrows).
    exists n, frame. split; [apply exec_formatAsTimeSeries; exact Hrun|].
    unfold selectData in Hrows. rewrite Habsent in Hrows.
    split; [exact Hrows|split].
    + intros Hempty. rewrite Hrows, Hempty. reflexivity.
    + intros Hall key value Hin Hparse. rewrite Hrows, Hall.
      apply in_map_iff. exists (key, value). split.
      * unfold toRow, timeOf. simpl. rewrite Hparse. reflexivity.
      * apply list_elem_of_In. rewrite (Array_sort_Permutation (byTime host)).
        apply list_elem_of_filter. split; [exact I|]. apply list_elem_of_In. exact Hin.
  - intros host own query s Hown Hname.
    destruct (formatAsTimeSeries_rows host (JObj own) query s) as (n & frame & Hrun & Hrows).
    exists n, frame. split; [apply exec_formatAsTimeSeries; exact Hrun|].
    assert (Hinh : existsb (String.eqb (or_str (metric query) "watts")) Object_prototype_names
                   = true).
    { apply existsb_exists. eexists. split; [exact Hname|]. apply String.eqb_refl. }
    unfold selectData, index, inherited in Hrows. rewrite Hown, Hinh in Hrows.
    exact Hrows.
Qed.

(** C10 on the sample, asked for a metric it does not hold: one point is
    emitted, at time 0, and its value is the whole [watts] map. *)
Lemma C10_absent_metric_selects_whole_result_witness :
  exists n frame,
    exec Demo.host
      (formatAsTimeSeries Demo.host Demo.sample_result
         (Demo.with_metric "watt_hours" Demo.blank_query)) Demo.empty_state
    = (advance n Demo.empty_state, inr frame)
    /\ In (0, Demo.sample_watts) (rows frame).
Proof.
  destruct (proj1 C10_absent_metric_selects_whole_result Demo.host Demo.sample_result
              (Demo.with_metric "watt_hours" Demo.blank_query) Demo.empty_state eq_refl)
    as (n & frame & Hrun & _ & _ & Hrow).
  exists n, frame. split; [exact Hrun|].
  apply (Hrow eq_refl "watts" Demo.sample_watts); [left; reflexivity|reflexivity].
Defined.

(** The claim in the specification's words fails at that input: the sample
    holds only [watts]; asked for [watt_hours] with the period [all], the
    assembler emits a point where the claim has none. *)
Lemma C10_counterexample :
  ~ absent_metric_gives_no_points Demo.host Demo.sample_result
      (Demo.with_metric "watt_hours" Demo.blank_query) Demo.empty_state.
Proof.
  intros H. destruct (H eq_refl) as (s' & frame & Hrun & Hrows).
  vm_compute in Hrun. injection Hrun as _ <-. discriminate Hrows.
Qed.

(** A metric that names a member of [Object.prototype] selects that member,
    which has no entries: no point is emitted. *)
Example inherited_metric_rows :
  snd (exec Demo.host
         (formatAsTimeSeries Demo.host Demo.sample_result
            (Demo.with_metric "toString" Demo.blank_query)) Demo.empty_state)
  = inr {| frame_refId := "A"; field_name := "Value"; field_unit := "short"; rows := [] |}.
Proof. vm_compute. reflexivity. Qed.

Example absent_metric_rows :
  snd (exec Demo.host
         (formatAsTimeSeries Demo.host Demo.sample_result
            (Demo.with_metric "watt_hours" Demo.blank_query)) Demo.empty_state)
  = inr {| frame_refId := "A"; field_name := "Energy Accumulated (Wh)";
           field_unit := "watth"; rows := [(0, Demo.sample_watts)] |}.
Proof. vm_compute. reflexivity. Qed.

(** * Further properties of the code *)

(** ** The query resolver and the editors *)

Section Resolver.

Lemma find_none_of {A} (f : A -> bool) (l : list A) :
  (forall x, In x l -> f x = false) -> List.find f l = None.
Proof.
  induction l as [|x l IH]; intros H; simpl; [reflexivity|].
  rewrite (H x (or_introl eq_refl)). apply IH. intros y Hy. apply H. right. exact Hy.
Qed.

Lemma find_filter {A} (f : A -> bool) (P : A -> Prop) `{forall x, Decision (P x)}
    (l : list A) :
  (forall x, f x = true -> P x) -> List.find f (filter P l) = List.find f l.
Proof.
  intros HfP. induction l as [|x l IH]; [reflexivity|].
  rewrite filter_cons. destruct (decide (P x)) as [Hp|Hn]; simpl.
  - rewrite IH. reflexivity.
  - destruct (f x) eqn:Hf; [|exact IH]. exfalso. apply Hn, HfP, Hf.
Qed.

Lemma find_filter_out {A} (f : A -> bool) (P : A -> Prop) `{forall x, Decision (P x)}
    (l : list A) :
  (forall x, f x = true -> ~ P x) -> List.find f (filter P l) = None.
Proof.
  intros HfP. apply find_none_of. intros x Hx.
  apply list_elem_of_In, list_elem_of_filter in Hx. destruct Hx as [Hp _].
  destruct (f x) eqn:Hf; [|reflexivity]. exfalso. exact (HfP x Hf Hp).
Qed.

Lemma find_map_same {A} (f : A -> bool) (g : A -> A) (l : list A) :
  (forall x, f (g x) = f x) -> List.find f (map g l) = g <$> List.find f l.
Proof.
  intros Hfg. induction l as [|x l IH]; [reflexivity|]. simpl.
  rewrite Hfg. destruct (f x); [reflexivity|exact IH].
Qed.

Lemma find_app_some {A} (f : A -> bool) (l l' : list A) x :
  List.find f l = Some x -> List.find f (l ++ l') = Some x.
Proof.
  induction l as [|y l IH]; simpl; [discriminate|].
  destruct (f y); [trivial|exact IH].
Qed.

Lemma find_app_none {A} (f : A -> bool) (l l' : list A) :
  List.find f l = None -> List.find f (l ++ l') = List.find f l'.
Proof.
  induction l as [|y l IH]; simpl; [reflexivity|].
  destruct (f y); [discriminate|exact IH].
Qed.

(** How [resolveLocation] goes, by the lookup of the id. *)
Lemma resolveLocation_references cfg query id :
  references query id = true ->
  resolveLocation cfg query =
  match List.find (fun loc => String.eqb (loc_id loc) id)
          (default [] (jsonData_locations cfg)) with
  | Some loc => inr (resolved_of loc)
  | None => inl (notFound id)
  end.
Proof.
  unfold references. intros H.
  apply andb_prop in H as [H Hid]. apply bool_decide_eq_true in Hid.
  unfold resolveLocation. rewrite H, Hid.
  assert (Hf : forall l : list SolarLocation,
            List.find (fun loc => bool_decide (Some (loc_id loc) = Some id)) l
            = List.find (fun loc => String.eqb (loc_id loc) id) l).
  { intros l. induction l as [|x l IH]; [reflexivity|]. simpl. rewrite IH.
    destruct (String.eqb_spec (loc_id x) id) as [->|Hne].
    - rewrite bool_decide_eq_true_2 by reflexivity. reflexivity.
    - rewrite bool_decide_eq_false_2 by congruence. reflexivity. }
  rewrite Hf. destruct (List.find _ _); reflexivity.
Qed.

(** A query that names no configured location, or names another one, does
    not look at the location [id]. *)
Lemma references_cases query :
  (exists id, references query id = true)
  \/ truthy_ostr (locationId query) && negb (default false (useCustomLocation query)) = false.
Proof.
  unfold references.
  destruct (truthy_ostr (locationId query) && negb (default false (useCustomLocation query)))
    eqn:H; [|right; reflexivity].
  left. destruct (locationId query) as [id|] eqn:Hl.
  - exists id. simpl. apply bool_decide_eq_true. reflexivity.
  - simpl in H. discriminate.
Qed.

Lemma references_inj query id id' :
  references query id = true -> references query id' = true -> id = id'.
Proof.
  unfold references. intros H H'.
  apply andb_prop in H as [_ H], H' as [_ H'].
  apply bool_decide_eq_true in H, H'. congruence.
Qed.

(** The resolver reads of the configuration only the locations. *)
Lemma resolveLocation_custom cfg cfg' query :
  truthy_ostr (locationId query) && negb (default false (useCustomLocation query)) = false ->
  resolveLocation cfg' query = resolveLocation cfg query.
Proof. intros H. unfold resolveLocation. rewrite H. reflexivity. Qed.

End Resolver.

(** X1: a query that names a location id no configured location carries
    fails at once with the not-found error: [doRequest] is done on the state
    it was given, before any reading of the clock, any look at the cache and
    any request. *)
Theorem X1_unknown_location_fails_at_once :
  forall (host : Host) (cfg : InstanceSettings) (query : MyQuery) (from to : Z)
         (id : string) (s : State),
    references query id = true ->
    (forall loc, In loc (default [] (jsonData_locations cfg)) -> loc_id loc <> id) ->
    doRequest host cfg query from to s = Done s (inl (notFound id)).
Proof.
  intros host cfg query from to id s Href Hnone.
  unfold doRequest. rewrite (resolveLocation_references cfg query id Href).
  rewrite find_none_of; [reflexivity|].
  intros loc Hin. apply String.eqb_neq. apply Hnone. exact Hin.
Qed.

Lemma X1_unknown_location_fails_at_once_witness :
  doRequest Demo.host Fixture.cfg (Fixture.at_location "loc_9") 0 0 Demo.empty_state
  = Done Demo.empty_state (inl (notFound "loc_9")).
Proof.
  apply (X1_unknown_location_fails_at_once Demo.host Fixture.cfg
           (Fixture.at_location "loc_9") 0 0 "loc_9" Demo.empty_state).
  - reflexivity.
  - simpl. intros loc [<-|[<-|[]]]; discriminate.
Defined.

(** X2: a query that names a configured location id resolves to the stored
    parameters of the first configured location with that id, copied as they
    are (a zero stays a zero); the inline parameters of the query are not
    looked at. *)
Theorem X2_configured_location_is_copied :
  forall (cfg : InstanceSettings) (query : MyQuery) (id : string)
         (before after : list SolarLocation) (loc : SolarLocation),
    references query id = true ->
    default [] (jsonData_locations cfg) = before ++ loc :: after ->
    loc_id loc = id ->
    (forall other, In other before -> loc_id other <> id) ->
    resolveLocation cfg query = inr (resolved_of loc).
Proof.
  intros cfg query id before after loc Href Hlocs Hid Hbefore.
  rewrite (resolveLocation_references cfg query id Href), Hlocs.
  rewrite find_app_none.
  - simpl. rewrite Hid, String.eqb_refl. reflexivity.
  - apply find_none_of. intros other Hin. apply String.eqb_neq, Hbefore, Hin.
Qed.

Lemma X2_configured_location_is_copied_witness :
  resolveLocation Fixture.cfg (Fixture.at_location "loc_1")
  = inr {| res_latitude := 48.1; res_longitude := 11.5; res_declination := 0;
           res_azimuth := 180; res_kwp := 9.8 |}.
Proof.
  apply (X2_configured_location_is_copied Fixture.cfg (Fixture.at_location "loc_1")
           "loc_1" [] [Fixture.shed] Fixture.roof).
  - reflexivity.
  - reflexivity.
  - reflexivity.
  - intros other [].
Defined.

Section EditorFacts.

Import Editor.

(** Every query resolves by the lookup of one id or by its inline
    parameters; two configurations on which the lookups agree resolve it
    alike. *)
Lemma resolveLocation_by_find cfg cfg' query :
  (forall id, references query id = true ->
     List.find (fun loc => String.eqb (loc_id loc) id) (default [] (jsonData_locations cfg'))
     = List.find (fun loc => String.eqb (loc_id loc) id) (default [] (jsonData_locations cfg))) ->
  resolveLocation cfg' query = resolveLocation cfg query.
Proof.
  intros H. destruct (references_cases query) as [[id Hid]|Hc].
  - rewrite !(resolveLocation_references _ query id Hid), (H id Hid). reflexivity.
  - apply resolveLocation_custom. exact Hc.
Qed.

End EditorFacts.

(** X3: after [onDeleteLocation] a query that names the deleted id fails
    with the not-found error, and every other query resolves as it did
    before. *)
Theorem X3_deleted_location_no_longer_resolves :
  forall (options : InstanceSettings) (locationId : string) (query : MyQuery),
    resolveLocation (Editor.onDeleteLocation options locationId) query
    = if references query locationId then inl (notFound locationId)
      else resolveLocation options query.
Proof.
  intros options locationId query.
  destruct (references query locationId) eqn:Href.
  - rewrite (resolveLocation_references _ query locationId Href). simpl.
    rewrite find_filter_out; [reflexivity|].
    intros loc Heq Hne. apply String.eqb_eq in Heq. contradiction.
  - apply resolveLocation_by_find. intros id Hid. simpl.
    apply find_filter. intros loc Heq Hdel. apply String.eqb_eq in Heq.
    subst. rewrite Hid in Href. discriminate.
Qed.

(** X4: saving an edited location keeps every id at its place in the list;
    afterwards a query that resolved to the edited location's id resolves to
    the new parameters, and every other query resolves as before.  With a
    blank name nothing is saved. *)
Theorem X4_edited_location_keeps_its_id :
  forall (trim : string -> string) (newId : string) (editing newLocation : SolarLocation)
         (options : InstanceSettings),
    match Editor.onSaveLocation trim newId (Some editing) newLocation options with
    | None => trim (loc_name newLocation) = ""
    | Some options' =>
        map loc_id (Editor.getLocations options') = map loc_id (Editor.getLocations options)
        /\ forall query,
             resolveLocation options' query =
             match resolveLocation options query with
             | inl e => inl e
             | inr r =>
                 if references query (loc_id editing)
                 then inr (resolved_of newLocation)
                 else inr r
             end
    end.
Proof.
  intros trim newId editing newLocation options. unfold Editor.onSaveLocation.
  destruct (truthy_str (trim (loc_name newLocation))) eqn:Hname; simpl.
  2:{ unfold truthy_str in Hname. apply negb_false_iff, String.eqb_eq in Hname. exact Hname. }
  set (g := fun loc : SolarLocation =>
              if String.eqb (loc_id loc) (loc_id editing)
              then Editor.with_id (loc_id editing) newLocation else loc).
  assert (Hg : forall loc, loc_id (g loc) = loc_id loc).
  { intros loc. unfold g. destruct (String.eqb_spec (loc_id loc) (loc_id editing)) as [->|];
      reflexivity. }
  split.
  - unfold Editor.getLocations. simpl. rewrite map_map.
    apply map_ext. exact Hg.
  - intros query. destruct (references_cases query) as [[id Hid]|Hc].
    + rewrite !(resolveLocation_references _ query id Hid). simpl.
      rewrite (find_map_same (fun loc => String.eqb (loc_id loc) id) g)
        by (intros loc; rewrite Hg; reflexivity).
      destruct (List.find _ _) as [loc|] eqn:Hfind; simpl; [|reflexivity].
      apply List.find_some in Hfind as [_ Hloc]. apply String.eqb_eq in Hloc.
      destruct (references query (loc_id editing)) eqn:Hed.
      * pose proof (references_inj query _ _ Hed Hid) as E. unfold g.
        rewrite Hloc, <- E, String.eqb_refl. reflexivity.
      * unfold g. destruct (String.eqb_spec (loc_id loc) (loc_id editing)) as [Heq|]; [|reflexivity].
        rewrite <- Heq, Hloc, Hid in Hed. discriminate.
    + rewrite (resolveLocation_custom options _ query Hc).
      destruct (resolveLocation options query) as [e|r]; [reflexivity|].
      replace (references query (loc_id editing)) with false; [reflexivity|].
      unfold references. rewrite Hc. reflexivity.
Qed.

(** X5: saving a new location appends it under the generated id; every query
    that resolved before resolves to the same parameters afterwards (also
    when the generated id is already taken), and a query that failed resolves
    now only if it names the new id. *)
Theorem X5_added_location_is_appended :
  forall (trim : string -> string) (newId : string) (newLocation : SolarLocation)
         (options : InstanceSettings),
    match Editor.onSaveLocation trim newId None newLocation options with
    | None => trim (loc_name newLocation) = ""
    | Some options' =>
        Editor.getLocations options'
        = Editor.getLocations options ++ [Editor.with_id newId newLocation]
        /\ forall query,
             resolveLocation options' query =
             match resolveLocation options query with
             | inr r => inr r
             | inl e =>
                 if references query newId then inr (resolved_of newLocation) else inl e
             end
    end.
Proof.
  intros trim newId newLocation options. unfold Editor.onSaveLocation.
  destruct (truthy_str (trim (loc_name newLocation))) eqn:Hname; simpl.
  2:{ unfold truthy_str in Hname. apply negb_false_iff, String.eqb_eq in Hname. exact Hname. }
  split; [reflexivity|].
  intros query. destruct (references_cases query) as [[id Hid]|Hc].
  - rewrite !(resolveLocation_references _ query id Hid). simpl.
    destruct (List.find _ (default [] (jsonData_locations options))) as [loc|] eqn:Hfind.
    + rewrite (find_app_some _ _ _ _ Hfind). reflexivity.
    + rewrite (find_app_none _ _ _ Hfind). simpl.
      destruct (String.eqb_spec newId id) as [->|Hne].
      * rewrite Hid. reflexivity.
      * destruct (references query newId) eqn:Hn; [|reflexivity].
        exfalso. apply Hne. exact (references_inj query _ _ Hn Hid).
  - rewrite (resolveLocation_custom options _ query Hc).
    unfold resolveLocation. rewrite Hc. reflexivity.
Qed.

(** X6: choosing a configured location in the query editor gives a query
    that [doRequest] resolves to that location's stored parameters; choosing
    [custom] gives one that resolves by its inline parameters; an id that is
    not configured leaves the query as it was. *)
Theorem X6_chosen_location_is_the_resolved_one :
  forall (cfg : InstanceSettings) (selectedLocationId : string) (query : MyQuery),
    let query' := Editor.onLocationChange (Editor.getLocations cfg) selectedLocationId query in
    if String.eqb selectedLocationId "custom" then
      resolveLocation cfg query'
      = inr {| res_latitude := or_num (latitude query) 51.13;
               res_longitude := or_num (longitude query) 10.42;
               res_declination := or_num (declination query) 30;
               res_azimuth := or_num (azimuth query) 180;
               res_kwp := or_num (kwp query) 5.0 |}
    else
      match List.find (fun loc => String.eqb (loc_id loc) selectedLocationId)
              (Editor.getLocations cfg) with
      | Some loc =>
          selectedLocationId <> "" -> resolveLocation cfg query' = inr (resolved_of loc)
      | None => query' = query
      end.
Proof.
  intros cfg sel query query'. subst query'. unfold Editor.onLocationChange.
  destruct (String.eqb sel "custom") eqn:Hcustom; [reflexivity|].
  destruct (List.find _ (Editor.getLocations cfg)) as [loc|] eqn:Hfind.
  - intros Hne. assert (Ht : truthy_str sel = true).
    { unfold truthy_str. apply negb_true_iff, String.eqb_neq. exact Hne. }
    rewrite Ht.
    rewrite (resolveLocation_references cfg _ sel).
    + unfold Editor.getLocations in Hfind. rewrite Hfind. reflexivity.
    + unfold references. simpl. rewrite Ht. simpl.
      apply bool_decide_eq_true. reflexivity.
  - destruct (truthy_str sel); reflexivity.
Qed.

(** ** The gate, beyond the claims *)

Section GateFacts.

Context (host : Host) (cfg : InstanceSettings).

(** A forecast call of the primary provider issues its request and waits. *)
Lemma fetchForecastSolarData_starts lat lon dec az kw dataType metric sd ed s :
  String.eqb dataType "historical" = false ->
  exists k,
    fetchForecastSolarData host cfg lat lon dec az kw dataType metric sd ed s
    = Await
        (issue (proxyUrl cfg
                  (if hasApiKey cfg then "forecast-solar-paid" else "forecast-solar-free")
                  (estimate_path host lat lon dec az kw)) s)
        (length (requests s))
        (proxyUrl cfg
           (if hasApiKey cfg then "forecast-solar-paid" else "forecast-solar-free")
           (estimate_path host lat lon dec az kw))
        k.
Proof.
  intros Hh. unfold fetchForecastSolarData, fetchForecastSolarDataViaProxy.
  rewrite Hh. simpl. eexists. reflexivity.
Qed.

Lemma fetch_path_no_entry query loc s :
  cache s !! cacheKey_of host cfg query loc = None ->
  fetch_path host cfg query loc s = Some (advance 1 s).
Proof. intros Hc. unfold fetch_path. rewrite Hc. reflexivity. Qed.

(** Without an entry for its key, a forecast call of the primary provider
    issues its request. *)
Lemma doRequest_no_entry_starts query from to loc s :
  resolveLocation cfg query = inr loc ->
  cache s !! cacheKey_of host cfg query loc = None ->
  String.eqb (provider_of cfg) "solcast" = false ->
  String.eqb (or_str (dataType query) "forecast") "historical" = false ->
  exists k,
    doRequest host cfg query from to s
    = Await (issue (estimate_url host cfg loc) (advance 1 s)) (length (requests s))
        (estimate_url host cfg loc) k.
Proof.
  intros Hloc Hc Hprov Hhist. unfold doRequest. rewrite Hloc.
  unfold try_catch, bind.
  rewrite (obtainData_fetch host cfg query loc s _ (fetch_path_no_entry query loc s Hc)).
  unfold fetchFresh, bind, callProvider. rewrite Hprov.
  destruct (fetchForecastSolarData_starts (res_latitude loc) (res_longitude loc)
              (res_declination loc) (res_azimuth loc) (res_kwp loc)
              (or_str (dataType query) "forecast") (or_str (metric query) "watts")
              (startDate query) (endDate query) (advance 1 s) Hhist) as [k Hk].
  rewrite Hk. simpl. eexists. reflexivity.
Qed.

End GateFacts.

(** X7: the rate gate holds back only calls that have a cache entry to fall
    back on.  A forecast call of the primary provider whose key has no entry
    reads the clock once and issues its request to the estimate endpoint,
    whatever [lastApiCall] holds for the provider. *)
Theorem X7_no_entry_always_fetches :
  forall (host : Host) (cfg : InstanceSettings) (query : MyQuery) (from to : Z)
         (loc : ResolvedLocation) (s : State),
    resolveLocation cfg query = inr loc ->
    cache s !! cacheKey_of host cfg query loc = None ->
    String.eqb (provider_of cfg) "solcast" = false ->
    String.eqb (or_str (dataType query) "forecast") "historical" = false ->
    exists k,
      doRequest host cfg query from to s
      = Await (issue (estimate_url host cfg loc) (advance 1 s)) (length (requests s))
          (estimate_url host cfg loc) k.
Proof.
  intros host cfg query from to loc s Hloc Hc Hprov Hhist.
  apply doRequest_no_entry_starts; assumption.
Qed.

(** X7 with a provider call recorded at this very instant and a cache that
    holds another query's entry only. *)
Lemma X7_no_entry_always_fetches_witness :
  exists k,
    doRequest Demo.host Demo.primary_cfg Demo.daily_query 0 0 Demo.warm_state
    = Await (issue (estimate_url Demo.host Demo.primary_cfg Demo.default_loc)
               (advance 1 Demo.warm_state))
        (length (requests Demo.warm_state))
        (estimate_url Demo.host Demo.primary_cfg Demo.default_loc) k.
Proof.
  apply (X7_no_entry_always_fetches Demo.host Demo.primary_cfg Demo.daily_query 0 0
           Demo.default_loc Demo.warm_state).
  - reflexivity.
  - vm_compute. reflexivity.
  - reflexivity.
  - reflexivity.
Defined.

(** X8: two targets of one batch with the same query and no cache entry are
    both started before either is answered, so both issue the request: the
    second one finds the cache as the first one found it. *)
Theorem X8_identical_targets_both_fetch :
  forall (host : Host) (cfg : InstanceSettings) (query : MyQuery) (from to : Z)
         (loc : ResolvedLocation) (s : State),
    resolveLocation cfg query = inr loc ->
    cache s !! cacheKey_of host cfg query loc = None ->
    String.eqb (provider_of cfg) "solcast" = false ->
    String.eqb (or_str (dataType query) "forecast") "historical" = false ->
    let url := estimate_url host cfg loc in
    exists k1 k2,
      start_all (map (fun target => doRequest host cfg target from to) [query; query]) s
      = ([Await (issue url (advance 1 s)) (length (requests s)) url k1;
          Await (issue url (advance 1 (issue url (advance 1 s))))
            (S (length (requests s))) url k2],
         issue url (advance 1 (issue url (advance 1 s)))).
Proof.
  intros host cfg query from to loc s Hloc Hc Hprov Hhist url.
  destruct (doRequest_no_entry_starts host cfg query from to loc s Hloc Hc Hprov Hhist)
    as [k1 H1].
  destruct (doRequest_no_entry_starts host cfg query from to loc
              (issue (estimate_url host cfg loc) (advance 1 s)) Hloc Hc Hprov Hhist)
    as [k2 H2].
  exists k1, k2. simpl. rewrite H1. simpl. rewrite H2. simpl.
  rewrite length_app, Nat.add_comm. reflexivity.
Qed.

Lemma X8_identical_targets_both_fetch_witness :
  let url := estimate_url Demo.host Demo.primary_cfg Demo.default_loc in
  exists k1 k2,
    start_all (map (fun target => doRequest Demo.host Demo.primary_cfg target 0 0)
                 [Demo.blank_query; Demo.blank_query]) Demo.empty_state
    = ([Await (issue url (advance 1 Demo.empty_state))
          (length (requests Demo.empty_state)) url k1;
        Await (issue url (advance 1 (issue url (advance 1 Demo.empty_state))))
          (S (length (requests Demo.empty_state))) url k2],
       issue url (advance 1 (issue url (advance 1 Demo.empty_state)))).
Proof.
  apply (X8_identical_targets_both_fetch Demo.host Demo.primary_cfg Demo.blank_query 0 0
           Demo.default_loc Demo.empty_state).
  - reflexivity.
  - reflexivity.
  - reflexivity.
  - reflexivity.
Defined.

Section GateOrder.

Context (host : Host) (cfg : InstanceSettings).

(** The minimum interval between calls is never longer than the TTL. *)
Lemma minInterval_le_TTL provider metric :
  minIntervalBetweenCalls provider <= getEffectiveCacheTTL provider metric.
Proof.
  unfold minIntervalBetweenCalls, getEffectiveCacheTTL.
  destruct (String.eqb provider "solcast"); [reflexivity|].
  destruct (String.eqb metric "watt_hours_day"); vm_compute; discriminate.
Qed.

(** What a call does to the two maps: nothing, or one write to each, under
    its own key and its own provider, and then it returns a frame. *)
Lemma doRequest_store query from to s :
  let s' := fst (exec host (doRequest host cfg query from to) s) in
  (cache s' = cache s /\ lastApiCall s' = lastApiCall s)
  \/ exists loc entry t,
       resolveLocation cfg query = inr loc
       /\ cache s' = <[cacheKey_of host cfg query loc := entry]> (cache s)
       /\ lastApiCall s' = <[provider_of cfg := t]> (lastApiCall s).
Proof.
  intros s'. subst s'.
  destruct (resolveLocation cfg query) as [e|loc] eqn:Hloc.
  { left. assert (Hx : exec host (doRequest host cfg query from to) s = (s, inl e))
      by (unfold exec, doRequest; rewrite Hloc; reflexivity).
    rewrite Hx. split; reflexivity. }
  destruct (fetch_path host cfg query loc s) as [sf|] eqn:Hpath.
  - rewrite (exec_doRequest_fetch host cfg query from to loc s sf Hloc Hpath).
    rewrite exec_fetchFresh.
    destruct (fetch_path_keeps host cfg query loc s sf Hpath) as [Hc0 Hl0].
    destruct (exec host (callProvider host cfg query loc) sf) as [s2 [e|d]] eqn:Hcall;
      destruct (callProvider_keeps host cfg query loc sf s2 _ Hcall) as [Hc1 Hl1].
    + left. simpl. split; congruence.
    + right.
      match goal with |- context [exec host (formatAsTimeSeries host d query) ?st] =>
        destruct (formatAsTimeSeries_done host d query st) as (n & frame & Hf)
      end.
      unfold exec. rewrite Hf. simpl. rewrite Hc1, Hc0, Hl1, Hl0.
      eexists loc, _, _. repeat split; reflexivity.
  - left. destruct (obtainData_cached host cfg query loc s Hpath) as (c & n & _ & Hob).
    destruct (doRequest_cached_same_store host cfg query from to loc s n _ Hloc Hob)
      as (Hc & Hl & _).
    split; assumption.
Qed.

End GateOrder.

(** X9: with a clock that never runs backwards, an entry past its TTL is
    fetched anew unless the provider was called after the entry was stored:
    when the recorded last call is not later than the entry's timestamp, the
    rate gate lets the call through. *)
Theorem X9_expired_entry_is_fetched_anew :
  forall (host : Host) (cfg : InstanceSettings) (query : MyQuery)
         (loc : ResolvedLocation) (c : CacheEntry) (s : State),
    (forall n, clock host n <= clock host (S n)) ->
    cache s !! cacheKey_of host cfg query loc = Some c ->
    default 0 (lastApiCall s !! provider_of cfg) <= entry_timestamp c ->
    getEffectiveCacheTTL (provider_of cfg) (or_str (metric query) "watts")
      <= clock host (ticks s) - entry_timestamp c ->
    obtainData host cfg query loc s = fetchFresh host cfg query loc (advance 2 s).
Proof.
  intros host cfg query loc c s Hmono Hc Hlast Hexp.
  apply obtainData_fetch. unfold fetch_path. rewrite Hc.
  pose proof (minInterval_le_TTL (provider_of cfg) (or_str (metric query) "watts")) as Hle.
  pose proof (Hmono (ticks s)) as Hstep.
  destruct (Z.ltb_spec (clock host (ticks s) - entry_timestamp c)
              (getEffectiveCacheTTL (provider_of cfg) (or_str (metric query) "watts")));
    [lia|].
  destruct (Z.ltb_spec (clock host (S (ticks s)) - default 0 (lastApiCall s !! provider_of cfg))
              (minIntervalBetweenCalls (provider_of cfg))); [lia|].
  reflexivity.
Qed.

Lemma X9_expired_entry_is_fetched_anew_witness :
  obtainData Demo.host Demo.primary_cfg Demo.blank_query Demo.default_loc
    Fixture.expired_state
  = fetchFresh Demo.host Demo.primary_cfg Demo.blank_query Demo.default_loc
      (advance 2 Fixture.expired_state).
Proof.
  apply (X9_expired_entry_is_fetched_anew Demo.host Demo.primary_cfg Demo.blank_query
           Demo.default_loc
           {| entry_data := Demo.sample_result; entry_timestamp := Demo.T0 - minutes 40 |}
           Fixture.expired_state).
  - intros n. simpl. lia.
  - vm_compute. reflexivity.
  - vm_compute. discriminate.
  - vm_compute. discriminate.
Defined.

(** X10: what a successful fetch stores is what the next call gets.  After a
    call that went to the provider and got data, a call with the same query,
    made while the clock is within the TTL of the stored timestamp, is
    answered with that same data and issues no request. *)
Theorem X10_fetched_data_is_served_next :
  forall (host : Host) (cfg : InstanceSettings) (query : MyQuery) (from to : Z)
         (loc : ResolvedLocation) (s sf s2 : State) (d : jsval),
    resolveLocation cfg query = inr loc ->
    fetch_path host cfg query loc s = Some sf ->
    exec host (callProvider host cfg query loc) sf = (s2, inr d) ->
    let s1 := fst (exec host (doRequest host cfg query from to) s) in
    clock host (ticks s1) - clock host (S (ticks s2))
      < getEffectiveCacheTTL (provider_of cfg) (or_str (metric query) "watts") ->
    obtainData host cfg query loc s1 = Done (advance 1 s1) (inr d)
    /\ same_store s1 (fst (exec host (doRequest host cfg query from to) s1)).
Proof.
  intros host cfg query from to loc s sf s2 d Hloc Hpath Hcall s1 Hage.
  assert (Hentry : cache s1 !! cacheKey_of host cfg query loc
                   = Some {| entry_data := d;
                             entry_timestamp := clock host (S (ticks s2)) |}).
  { subst s1. rewrite (exec_doRequest_fetch host cfg query from to loc s sf Hloc Hpath).
    rewrite exec_fetchFresh, Hcall.
    match goal with |- context [exec host (formatAsTimeSeries host d query) ?st] =>
      destruct (formatAsTimeSeries_done host d query st) as (n & frame & Hf)
    end.
    unfold exec. rewrite Hf. simpl. apply lookup_insert_eq. }
  assert (Hob : obtainData host cfg query loc s1 = Done (advance 1 s1) (inr d)).
  { apply (obtainData_hit host cfg query loc _ s1 Hentry). exact Hage. }
  split; [exact Hob|].
  eapply doRequest_cached_same_store; eassumption.
Qed.

Lemma X10_fetched_data_is_served_next_witness :
  let s2 := fst (exec Demo.host
                   (callProvider Demo.host Demo.solcast_cfg Fixture.solcast_query
                      Demo.default_loc)
                   (advance 1 Demo.empty_state)) in
  let d := JObj [("watts", JObj [("1751799600", JNum 500)])] in
  let s1 := fst (exec Demo.host
                   (doRequest Demo.host Demo.solcast_cfg Fixture.solcast_query 0 0)
                   Demo.empty_state) in
  obtainData Demo.host Demo.solcast_cfg Fixture.solcast_query Demo.default_loc s1
  = Done (advance 1 s1) (inr d)
  /\ same_store s1
       (fst (exec Demo.host
               (doRequest Demo.host Demo.solcast_cfg Fixture.solcast_query 0 0) s1)).
Proof.
  intros s2 d s1.
  apply (X10_fetched_data_is_served_next Demo.host Demo.solcast_cfg Fixture.solcast_query
           0 0 Demo.default_loc Demo.empty_state (advance 1 Demo.empty_state) s2 d).
  - reflexivity.
  - reflexivity.
  - vm_compute. reflexivity.
  - vm_compute. reflexivity.
Defined.

(** X11: a call never removes anything from the two maps.  Every cache key
    other than its own keeps its entry as it is, every key that had an entry
    still has one, and the recorded last call of every other provider stays
    as it is. *)
Theorem X11_call_touches_only_its_own_key :
  forall (host : Host) (cfg : InstanceSettings) (query : MyQuery) (from to : Z)
         (s : State),
    let s' := fst (exec host (doRequest host cfg query from to) s) in
    (forall key, is_Some (cache s !! key) -> is_Some (cache s' !! key))
    /\ (forall loc key,
          resolveLocation cfg query = inr loc ->
          key <> cacheKey_of host cfg query loc ->
          cache s' !! key = cache s !! key)
    /\ (forall provider,
          provider <> provider_of cfg ->
          lastApiCall s' !! provider = lastApiCall s !! provider).
Proof.
  intros host cfg query from to s s'.
  destruct (doRequest_store host cfg query from to s)
    as [[Hc Hl]|(loc & entry & t & Hloc & Hc & Hl)]; fold s' in Hc, Hl.
  - rewrite Hc, Hl. repeat split; auto.
  - rewrite Hc, Hl. split; [|split].
    + intros key Hk. destruct (decide (key = cacheKey_of host cfg query loc)) as [->|Hne].
      * rewrite lookup_insert_eq. eexists. reflexivity.
      * rewrite lookup_insert_ne by congruence. exact Hk.
    + intros loc' key Hloc' Hne. rewrite Hloc in Hloc'. injection Hloc' as <-.
      apply lookup_insert_ne. congruence.
    + intros provider Hne. apply lookup_insert_ne. congruence.
Qed.

(** ** The primary provider's adapter *)

(** [d.setDate(d.getDate() + k)] is [k] days later, to the millisecond. *)
Lemma setDate_getDate tza d k :
  setDate tza d (getDate tza d + k) = d + k * msPerDay.
Proof.
  unfold setDate, getDate, MakeDate, MakeDay_in_month_of, TimeWithinDay, UTC, Day.
  set (t := LocalTime tza d). set (date := DateFromTime t).
  pose proof (Z.div_mod t msPerDay ltac:(unfold msPerDay; lia)) as Hdm.
  unfold LocalTime in t. nia.
Qed.


Section PrimaryAdapter.

Context (host : Host) (cfg : InstanceSettings).

Lemma exec_ret {A} (a : A) s : exec host (ret a) s = (s, inr a).
Proof. reflexivity. Qed.

Lemma exec_throw {A} e s : exec host (throw (A := A) e) s = (s, inl e).
Proof. reflexivity. Qed.

(** [processForecastSolarData] neither looks at the state nor changes it. *)
Lemma processForecastSolarData_pure body dataType metric s s0 :
  processForecastSolarData body dataType metric s
  = Done s (snd (exec host (processForecastSolarData body dataType metric) s0)).
Proof.
  unfold processForecastSolarData. repeat case_match; reflexivity.
Qed.

(** A request followed by the processing of its body. *)
Lemma exec_request url dataType metric s :
  exec host (do body <- backend_get url;
             processForecastSolarData body dataType metric) s
  = (issue url s, attempt host (length (requests s)) url dataType metric).
Proof.
  unfold exec, bind, backend_get, attempt. simpl.
  destruct (backendGet host (length (requests s)) url) as [e|body]; simpl; [reflexivity|].
  rewrite (processForecastSolarData_pure body dataType metric _
             {| cache := ∅; lastApiCall := ∅; ticks := 0; requests := [] |}).
  reflexivity.
Qed.

(** The flow of a forecast request. *)
Lemma exec_fetchForecast lat lon dec az kw dataType metric sd ed s :
  String.eqb dataType "historical" = false ->
  let path := estimate_path host lat lon dec az kw in
  let paid := proxyUrl cfg "forecast-solar-paid" path in
  let free := proxyUrl cfg "forecast-solar-free" path in
  let n := length (requests s) in
  exec host (fetchForecastSolarData host cfg lat lon dec az kw dataType metric sd ed) s =
  if hasApiKey cfg then
    match attempt host n paid dataType metric with
    | inr v => (issue paid s, inr v)
    | inl _ => (issue free (issue paid s), attempt host (S n) free dataType metric)
    end
  else
    (issue free s, attempt host n free dataType metric).
Proof.
  intros Hh path paid free n. subst path paid free n.
  unfold fetchForecastSolarData, fetchForecastSolarDataViaProxy.
  unfold estimate_path, endpoint_params, show_num.
  rewrite Hh. simpl. rewrite exec_bind, exec_ret.
  rewrite exec_try_catch, exec_request.
  destruct (hasApiKey cfg) eqn:Hkey; simpl.
  - destruct (attempt host _ _ dataType metric) as [e|v]; [|reflexivity].
    rewrite exec_rethrow, exec_request. simpl.
    rewrite length_app, Nat.add_comm. reflexivity.
  - destruct (attempt host _ _ dataType metric) as [e|v]; reflexivity.
Qed.

#[local] Arguments setDate : simpl never.
#[local] Arguments getDate : simpl never.
#[local] Arguments toISODate : simpl never.

(** The flow of a historical request with a key and an energy metric. *)
Lemma exec_fetchHistorical lat lon dec az kw dataType metric sd ed s :
  String.eqb dataType "historical" = true ->
  hasApiKey cfg = true ->
  String.eqb metric "history_watthours" || String.eqb metric "watthours" = true ->
  let explicit := truthy_ostr sd && truthy_ostr ed in
  let today := clock host (ticks s) in
  let url :=
    proxyUrl cfg "forecast-solar-paid"
      (if explicit
       then history_path host lat lon dec az kw (show_ostr sd) (show_ostr ed)
       else history_path host lat lon dec az kw
              (toISODate (today - 7 * msPerDay)) (toISODate today)) in
  let s1 := if explicit then s else advance 1 s in
  exec host (fetchForecastSolarData host cfg lat lon dec az kw dataType metric sd ed) s
  = (issue url s1,
     match attempt host (length (requests s)) url dataType metric with
     | inr v => inr v
     | inl e => inl (historical_failure e)
     end).
Proof.
  intros Hh Hkey Hmetric explicit today url s1. subst explicit today url s1.
  unfold fetchForecastSolarData, fetchForecastSolarDataViaProxy.
  unfold history_path, endpoint_params, show_num.
  rewrite Hh, Hkey, Hmetric. simpl.
  destruct (truthy_ostr sd && truthy_ostr ed) eqn:Hdates.
  - rewrite exec_bind, exec_ret, exec_try_catch, exec_request.
    destruct (attempt host _ _ dataType metric); reflexivity.
  - rewrite exec_bind.
    assert (Hnow : forall (f : Z -> string),
              exec host (do today <- Date_now host; ret (f today)) s
              = (advance 1 s, inr (f (clock host (ticks s))))) by reflexivity.
    rewrite Hnow. rewrite exec_try_catch, exec_request.
    replace (clock host (ticks s) - 7 * msPerDay)
      with (setDate (LocalTZA host) (clock host (ticks s))
              (getDate (LocalTZA host) (clock host (ticks s)) - 7)).
    + destruct (attempt host _ _ dataType metric); reflexivity.
    + change (getDate (LocalTZA host) (clock host (ticks s)) - 7)
        with (getDate (LocalTZA host) (clock host (ticks s)) + (-7)).
      rewrite setDate_getDate. lia.
Qed.

(** The adapter's refusals: no request, the state as it was. *)
Lemma fetchHistorical_refused lat lon dec az kw dataType metric sd ed s :
  String.eqb dataType "historical" = true ->
  hasApiKey cfg = false
  \/ String.eqb metric "history_watthours" || String.eqb metric "watthours" = false ->
  fetchForecastSolarData host cfg lat lon dec az kw dataType metric sd ed s
  = Done s (inl (if hasApiKey cfg then energy_only metric else needs_paid_key)).
Proof.
  intros Hh Hwhy.
  unfold fetchForecastSolarData, fetchForecastSolarDataViaProxy. rewrite Hh.
  destruct (hasApiKey cfg) eqn:Hkey; simpl; [|reflexivity].
  destruct Hwhy as [Hk|Hm]; [discriminate|]. rewrite Hm. reflexivity.
Qed.

End PrimaryAdapter.

(** X12: with an API key the paid route is asked first; when that request is
    rejected, or its body is no forecast, the free route is asked once, with
    the same endpoint path, and what it comes to is the result, its error
    included.  Without a key only the free route is asked and its failure is
    the result. *)
Theorem X12_forecast_falls_back_to_free_route :
  forall (host : Host) (cfg : InstanceSettings) (lat lon dec az kw : float)
         (dataType metric : string) (sd ed : option string) (s : State),
    String.eqb dataType "historical" = false ->
    let path := estimate_path host lat lon dec az kw in
    let paid := proxyUrl cfg "forecast-solar-paid" path in
    let free := proxyUrl cfg "forecast-solar-free" path in
    let n := length (requests s) in
    exec host (fetchForecastSolarData host cfg lat lon dec az kw dataType metric sd ed) s =
    if hasApiKey cfg then
      match attempt host n paid dataType metric with
      | inr v => (issue paid s, inr v)
      | inl _ => (issue free (issue paid s), attempt host (S n) free dataType metric)
      end
    else
      (issue free s, attempt host n free dataType metric).
Proof.
  intros host cfg lat lon dec az kw dataType metric sd ed s Hh.
  apply exec_fetchForecast. exact Hh.
Qed.

(** X12 with a key and a backend that is down: both routes are asked, in
    that order, and the rejection of the free route comes back. *)
Lemma X12_forecast_falls_back_to_free_route_witness :
  let path := estimate_path Demo.host_down 51.13 10.42 30 180 5 in
  let paid := proxyUrl Fixture.paid_cfg "forecast-solar-paid" path in
  let free := proxyUrl Fixture.paid_cfg "forecast-solar-free" path in
  exec Demo.host_down
    (fetchForecastSolarData Demo.host_down Fixture.paid_cfg 51.13 10.42 30 180 5
       "forecast" "watts" None None) Demo.empty_state
  = (issue free (issue paid Demo.empty_state), inl (FetchError 502 "Bad Gateway")).
Proof.
  intros path paid free.
  exact (X12_forecast_falls_back_to_free_route Demo.host_down Fixture.paid_cfg
           51.13 10.42 30 180 5 "forecast" "watts" None None Demo.empty_state eq_refl).
Defined.

Section Refusals.

Context (host : Host) (cfg : InstanceSettings).

Lemma fetch_path_same_store query loc s sf :
  fetch_path host cfg query loc s = Some sf -> same_store s sf.
Proof.
  unfold fetch_path. repeat case_match; intros [= <-]; repeat split; reflexivity.
Qed.

(** When the adapter refuses the call outright, so does [doRequest], on the
    state the gate left. *)
Lemma doRequest_refused query from to loc s sf e :
  resolveLocation cfg query = inr loc ->
  fetch_path host cfg query loc s = Some sf ->
  callProvider host cfg query loc sf = Done sf (inl e) ->
  doRequest host cfg query from to s = Done sf (inl e).
Proof.
  intros Hloc Hpath Hcall. unfold doRequest. rewrite Hloc.
  unfold try_catch, bind. rewrite (obtainData_fetch host cfg query loc s sf Hpath).
  unfold fetchFresh, bind. rewrite Hcall. reflexivity.
Qed.

End Refusals.

(** X13: a historical query of the primary provider that the gate sends on
    is refused before any request when no API key is configured, and when the
    metric is not [history_watthours] or [watthours] (the default metric
    [watts] among them): [doRequest] fails at once with the matching error,
    having issued no request and written neither map. *)
Theorem X13_historical_query_refused_without_request :
  forall (host : Host) (cfg : InstanceSettings) (query : MyQuery) (from to : Z)
         (loc : ResolvedLocation) (s sf : State),
    resolveLocation cfg query = inr loc ->
    fetch_path host cfg query loc s = Some sf ->
    String.eqb (provider_of cfg) "solcast" = false ->
    String.eqb (or_str (dataType query) "forecast") "historical" = true ->
    hasApiKey cfg = false
    \/ String.eqb (or_str (metric query) "watts") "history_watthours"
       || String.eqb (or_str (metric query) "watts") "watthours" = false ->
    doRequest host cfg query from to s
    = Done sf (inl (if hasApiKey cfg
                    then energy_only (or_str (metric query) "watts")
                    else needs_paid_key))
    /\ same_store s sf.
Proof.
  intros host cfg query from to loc s sf Hloc Hpath Hprov Hhist Hwhy.
  split; [|eapply fetch_path_same_store; exact Hpath].
  apply (doRequest_refused host cfg query from to loc s sf _ Hloc Hpath).
  unfold callProvider. rewrite Hprov.
  apply fetchHistorical_refused; assumption.
Qed.

(** X13 with a key but without a metric: the default [watts] is refused. *)
Lemma X13_historical_query_refused_without_request_witness :
  doRequest Demo.host Fixture.paid_cfg
    {| refId := "A"; metric := None; dataType := Some "historical"; locationId := None;
       useCustomLocation := None; latitude := None; longitude := None;
       declination := None; azimuth := None; kwp := None; solcastSiteId := None;
       startDate := None; endDate := None; forecastPeriod := None |}
    0 0 Demo.empty_state
  = Done (advance 1 Demo.empty_state) (inl (energy_only "watts"))
  /\ same_store Demo.empty_state (advance 1 Demo.empty_state).
Proof.
  apply (X13_historical_query_refused_without_request Demo.host Fixture.paid_cfg
           {| refId := "A"; metric := None; dataType := Some "historical";
              locationId := None; useCustomLocation := None; latitude := None;
              longitude := None; declination := None; azimuth := None; kwp := None;
              solcastSiteId := None; startDate := None; endDate := None;
              forecastPeriod := None |}
           0 0 Demo.default_loc Demo.empty_state (advance 1 Demo.empty_state)).
  - reflexivity.
  - reflexivity.
  - reflexivity.
  - reflexivity.
  - right. reflexivity.
Defined.

(** X14: a historical request with a key and an energy metric issues exactly
    one request, on the paid route.  The range in its path is the start and
    end date of the query when both are given; otherwise the clock is read
    once and the range is the seven days that end today, as UTC dates.  A
    failure comes back as an [Error] that wraps the message of the cause; the
    free route is never asked. *)
Theorem X14_historical_request_flow :
  forall (host : Host) (cfg : InstanceSettings) (lat lon dec az kw : float)
         (dataType metric : string) (sd ed : option string) (s : State),
    String.eqb dataType "historical" = true ->
    hasApiKey cfg = true ->
    String.eqb metric "history_watthours" || String.eqb metric "watthours" = true ->
    let explicit := truthy_ostr sd && truthy_ostr ed in
    let today := clock host (ticks s) in
    let url :=
      proxyUrl cfg "forecast-solar-paid"
        (if explicit
         then history_path host lat lon dec az kw (show_ostr sd) (show_ostr ed)
         else history_path host lat lon dec az kw
                (toISODate (today - 7 * msPerDay)) (toISODate today)) in
    let s1 := if explicit then s else advance 1 s in
    exec host (fetchForecastSolarData host cfg lat lon dec az kw dataType metric sd ed) s
    = (issue url s1,
       match attempt host (length (requests s)) url dataType metric with
       | inr v => inr v
       | inl e => inl (historical_failure e)
       end).
Proof.
  intros host cfg lat lon dec az kw dataType metric sd ed s Hh Hkey Hmetric.
  apply exec_fetchHistorical; assumption.
Qed.

(** X14 with the backend down and only a start date given: the start date is
    not used, the range is 2025-06-29 to 2025-07-06, and the rejection comes
    back wrapped. *)
Lemma X14_historical_request_flow_witness :
  let url :=
    proxyUrl Fixture.paid_cfg "forecast-solar-paid"
      (history_path Demo.host_down 51.13 10.42 30 180 5 "2025-06-29" "2025-07-06") in
  exec Demo.host_down
    (fetchForecastSolarData Demo.host_down Fixture.paid_cfg 51.13 10.42 30 180 5
       "historical" "watthours" (Some "2025-01-01") None) Demo.empty_state
  = (issue url (advance 1 Demo.empty_state),
     inl (ErrorObj "Historical data is only available with a paid API key. Error: Unknown error")).
Proof.
  intros url.
  pose proof (X14_historical_request_flow Demo.host_down Fixture.paid_cfg
                51.13 10.42 30 180 5 "historical" "watthours" (Some "2025-01-01") None
                Demo.empty_state eq_refl eq_refl eq_refl) as H.
  rewrite H. vm_compute. reflexivity.
Defined.

(** X15: a query of the alt provider that the gate sends on is refused
    before any request when no API key is stored, and otherwise when it has
    no site id: [doRequest] fails at once, having issued no request and
    written neither map. *)
Theorem X15_alt_provider_refused_without_request :
  forall (host : Host) (cfg : InstanceSettings) (query : MyQuery) (from to : Z)
         (loc : ResolvedLocation) (s sf : State),
    resolveLocation cfg query = inr loc ->
    fetch_path host cfg query loc s = Some sf ->
    String.eqb (provider_of cfg) "solcast" = true ->
    default false (secureJsonFields_apiKey cfg) = false
    \/ truthy_ostr (solcastSiteId query) = false ->
    doRequest host cfg query from to s
    = Done sf (inl (if default false (secureJsonFields_apiKey cfg)
                    then ErrorObj "Solcast Site ID is required"
                    else ErrorObj "API key is required for Solcast"))
    /\ same_store s sf.
Proof.
  intros host cfg query from to loc s sf Hloc Hpath Hprov Hwhy.
  split; [|eapply fetch_path_same_store; exact Hpath].
  apply (doRequest_refused host cfg query from to loc s sf _ Hloc Hpath).
  unfold callProvider. rewrite Hprov. unfold fetchSolcastData.
  destruct (default false (secureJsonFields_apiKey cfg)) eqn:Hkey; simpl; [|reflexivity].
  destruct Hwhy as [Hk|Hsite]; [discriminate|]. rewrite Hsite. reflexivity.
Qed.

(** X15 with a key and no site id. *)
Lemma X15_alt_provider_refused_without_request_witness :
  doRequest Demo.host Demo.solcast_cfg Demo.blank_query 0 0 Demo.empty_state
  = Done (advance 1 Demo.empty_state) (inl (ErrorObj "Solcast Site ID is required"))
  /\ same_store Demo.empty_state (advance 1 Demo.empty_state).
Proof.
  apply (X15_alt_provider_refused_without_request Demo.host Demo.solcast_cfg
           Demo.blank_query 0 0 Demo.default_loc Demo.empty_state
           (advance 1 Demo.empty_state)).
  - reflexivity.
  - reflexivity.
  - reflexivity.
  - right. reflexivity.
Defined.

(** ** The canonical result of the primary provider *)

Section Canonical.

Context {A : Type}.
Implicit Types (o acc : list (string * A)).





End Canonical.





(** X18: [mapMetricToKey] is idempotent: the key it gives for a metric is a
    key it leaves as it is. *)
Theorem X18_mapMetricToKey_idempotent :
  forall metric : string, mapMetricToKey (mapMetricToKey metric) = mapMetricToKey metric.
Proof.
  intros metric. unfold mapMetricToKey at 2.
  destruct (String.eqb_spec metric "watts") as [->|E1]; [reflexivity|].
  destruct (String.eqb_spec metric "watthours") as [->|E2]; [reflexivity|].
  destruct (String.eqb_spec metric "watthours_day") as [->|E3]; [reflexivity|].
  destruct (String.eqb_spec metric "history_watthours") as [->|E4]; [reflexivity|].
  destruct (String.eqb_spec metric "watt_hours") as [->|E5]; [reflexivity|].
  destruct (String.eqb_spec metric "watt_hours_day") as [->|E6]; [reflexivity|].
  destruct (String.eqb_spec metric "watt_hours_period") as [->|E7]; [reflexivity|].
  unfold mapMetricToKey.
  apply String.eqb_neq in E1, E2, E3, E4, E5, E6, E7.
  rewrite E1, E2, E3, E4, E5, E6, E7. reflexivity.
Qed.

(** ** Periods and days *)

Section Periods.

Context (host : Host).

#[local] Arguments setDate : simpl never.
#[local] Arguments setHours : simpl never.
#[local] Arguments getDate : simpl never.
#[local] Arguments dayFilter : simpl never.

Lemma spec_window_None period :
  spec_window period = None ->
  String.eqb period "all" = false
  /\ forall today, targetDateFrom host today period = today.
Proof.
  unfold spec_window, targetDateFrom.
  destruct (String.eqb period "all"); [discriminate|].
  destruct (String.eqb period "today"); [discriminate|].
  destruct (String.eqb period "tomorrow"); [discriminate|].
  destruct (String.eqb period "day+2"); [discriminate|].
  destruct (String.eqb period "day+3"); [discriminate|].
  destruct (String.eqb period "day+4"); [discriminate|].
  destruct (String.eqb period "day+5"); [discriminate|].
  destruct (String.eqb period "day+6"); [discriminate|].
  intros _. split; reflexivity.
Qed.

(** A window of a day is the set of instants of that calendar day. *)
Lemma in_window_day tza now offset t :
  in_window tza now (LocalDay offset) t = true
  <-> Day (LocalTime tza t) = Day (LocalTime tza now) + offset.
Proof.
  unfold in_window, MakeDate, MakeTime, Day, msPerHour, msPerMinute, msPerSecond, msPerDay.
  set (x := LocalTime tza t). set (d := LocalTime tza now / 86400000 + offset).
  rewrite andb_true_iff, !Z.leb_le.
  pose proof (Z.div_mod x 86400000 ltac:(lia)) as Hdm.
  pose proof (Z.mod_pos_bound x 86400000 ltac:(lia)) as Hb.
  split; intros H; nia.
Qed.

End Periods.

(** X19: a period label that is none of the eight known labels (and is not
    empty) is read as [today]: the frame is the one the same query gives with
    the period [today]. *)
Theorem X19_unknown_period_is_today :
  forall (host : Host) (allData : jsval) (query query' : MyQuery) (s : State)
         (period : string),
    forecastPeriod query = Some period ->
    period <> "" ->
    spec_window period = None ->
    forecastPeriod query' = Some "today" ->
    metric query' = metric query ->
    refId query' = refId query ->
    exec host (formatAsTimeSeries host allData query) s
    = exec host (formatAsTimeSeries host allData query') s.
Proof.
  intros host allData query query' s period Hp Hne Hw Hp' Hm Hr.
  destruct (spec_window_None host period Hw) as [Hall Htarget].
  assert (Hor : or_str (Some period) "all" = period).
  { unfold or_str, truthy_str. apply String.eqb_neq in Hne. rewrite Hne. reflexivity. }
  unfold formatAsTimeSeries. rewrite Hp, Hp', Hm, Hr, Hor, Hall.
  unfold exec, bind, getTargetDateFromPeriod, bind, Date_now, ret. cbn [drive bindRun].
  rewrite Htarget. reflexivity.
Qed.

Lemma X19_unknown_period_is_today_witness :
  exec Demo.host
    (formatAsTimeSeries Demo.host Demo.sample_result
       (Demo.with_period "yesterday" Demo.blank_query)) Demo.empty_state
  = exec Demo.host
      (formatAsTimeSeries Demo.host Demo.sample_result
         (Demo.with_period "today" Demo.blank_query)) Demo.empty_state.
Proof.
  apply (X19_unknown_period_is_today Demo.host Demo.sample_result
           (Demo.with_period "yesterday" Demo.blank_query)
           (Demo.with_period "today" Demo.blank_query) Demo.empty_state "yesterday").
  - reflexivity.
  - discriminate.
  - reflexivity.
  - reflexivity.
  - reflexivity.
  - reflexivity.
Defined.

(** X20: under a day period a key passes the time filter exactly when the
    local calendar day of its normalized timestamp is the period's offset
    after today's; hence no key passes the filters of two day periods with
    different offsets. *)
Theorem X20_day_period_is_a_calendar_day :
  forall (host : Host) (now : Z) (timestamp : string),
    (forall period offset,
        spec_window period = Some (LocalDay offset) ->
        code_filter host now (or_str (Some period) "all") timestamp = true
        <-> Day (LocalTime (LocalTZA host) (timeOf host timestamp))
            = Day (LocalTime (LocalTZA host) now) + offset)
    /\ (forall period period' offset offset',
          spec_window period = Some (LocalDay offset) ->
          spec_window period' = Some (LocalDay offset') ->
          code_filter host now (or_str (Some period) "all") timestamp = true ->
          code_filter host now (or_str (Some period') "all") timestamp = true ->
          offset = offset').
Proof.
  intros host now timestamp.
  assert (H : forall period offset,
            spec_window period = Some (LocalDay offset) ->
            code_filter host now (or_str (Some period) "all") timestamp = true
            <-> Day (LocalTime (LocalTZA host) (timeOf host timestamp))
                = Day (LocalTime (LocalTZA host) now) + offset).
  { intros period offset Hw. rewrite (code_filter_window host now period _ timestamp Hw).
    apply in_window_day. }
  split; [exact H|].
  intros period period' offset offset' Hw Hw' Hf Hf'.
  apply (H period offset Hw) in Hf. apply (H period' offset' Hw') in Hf'. lia.
Qed.

(** ** The connection test *)

Section ConnectionTest.

Context (host : Host) (cfg : InstanceSettings).

Lemma exec_probe_keeps s :
  keeps s (fst (exec host (probe host cfg) s)).
Proof.
  unfold exec. apply KeepsRun_drive. unfold probe. case_match.
  - apply keeps_fetchSolcastData. apply keeps_refl.
  - apply keeps_fetchForecastSolarData. apply keeps_refl.
Qed.

Lemma exec_test_after_probe (success : TestResult) (s : State) :
  exec host
    (try_catch (do _ <- probe host cfg; ret success)
       (fun error =>
          ret {| status := "error";
                 message := "Connection failed: " +:+ testErrorMessage error |})) s
  = (fst (exec host (probe host cfg) s),
     inr match snd (exec host (probe host cfg) s) with
         | inr _ => success
         | inl error =>
             {| status := "error";
                message := "Connection failed: " +:+ testErrorMessage error |}
         end).
Proof.
  rewrite exec_try_catch, exec_bind.
  destruct (exec host (probe host cfg) s) as [s' [e|v]]; reflexivity.
Qed.

End ConnectionTest.

(** X21: [testDatasource] never rejects: it is fulfilled with a result whose
    status is [success] or [error], and the cache and the record of last
    calls are as before.  With the alt provider and no stored API key the
    result is an error and nothing at all happened, no request either;
    otherwise the provider was called once with the fixed test parameters,
    and the status is [success] exactly when that call returned. *)
Theorem X21_connection_test_never_rejects :
  forall (host : Host) (cfg : InstanceSettings) (s : State),
    exists s' r,
      exec host (testDatasource host cfg) s = (s', inr r)
      /\ cache s' = cache s /\ lastApiCall s' = lastApiCall s
      /\ (status r = "success" \/ status r = "error")
      /\ if test_stops_early cfg
         then s' = s /\ r = {| status := "error";
                               message := "API key is required for Solcast provider" |}
         else s' = fst (exec host (probe host cfg) s)
              /\ (status r = "success"
                  <-> exists v, snd (exec host (probe host cfg) s) = inr v).
Proof.
  intros host cfg s. unfold testDatasource, test_stops_early.
  pose proof (exec_probe_keeps host cfg s) as Hk.
  pose proof (exec_test_after_probe host cfg) as Hx.
  unfold probe in *.
  destruct (bool_decide (jsonData_provider cfg = Some "solcast")) eqn:Hp.
  - destruct (secureJsonFields_apiKey cfg) as [[|]|] eqn:Hkey; cbn [negb andb].
    + rewrite bool_decide_eq_true_2 by reflexivity. cbn [negb]. rewrite Hx.
      destruct (exec host _ s) as [s' [e|v]]; cbn [fst snd] in *;
        eexists _, _; (split; [reflexivity|]); destruct Hk as [Hc Hl];
        repeat split; auto; cbn [status].
      * discriminate.
      * intros [v Hv]. discriminate.
      * intros _. eexists; reflexivity.
    + rewrite bool_decide_eq_false_2 by discriminate. cbn [negb].
      eexists _, _. split; [reflexivity|]. repeat split; auto.
    + rewrite bool_decide_eq_false_2 by discriminate. cbn [negb].
      eexists _, _. split; [reflexivity|]. repeat split; auto.
  - cbn [andb]. rewrite Hx.
    destruct (exec host _ s) as [s' [e|v]]; cbn [fst snd] in *;
      eexists _, _; (split; [reflexivity|]); destruct Hk as [Hc Hl];
      repeat split; auto; cbn [status].
    + discriminate.
    + intros [v Hv]. discriminate.
    + intros _. eexists; reflexivity.
Qed.
